(** * SentinelVoice audio pipeline: gain, level analysis, recording, playback

    A shallow embedding of the audio core of the application:

    - [App.tsx]: [startRecording], [stopRecording], the recorder's
      [ondataavailable] and [onstop] handlers, and [handleSpeak] with its
      local [decodeRawPCM];
    - [components/LiveMicIndicator.tsx]: [updateVolume];
    - [components/MiniWaveform.tsx]: [update];
    - [services/geminiService.ts]: [GeminiService.speak] and
      [GeminiService.decodeBase64].

    JavaScript numbers are IEEE 754 binary64 values and are modelled by the
    primitive floats of the kernel, so that [0 / 0] is [nan] here exactly as
    it is there.  Stores into a [Float32Array] and assignments to the
    [value] of an [AudioParam] round to binary32.  Exceptions
    are an explicit completion type.  The React component state and the
    browser objects the handlers close over (recorders, streams, audio
    contexts) form an explicit store that every handler transforms. *)

From Stdlib Require Import ZArith List Bool Lia String Ascii.
From Stdlib.Strings Require Import Byte.
From Stdlib Require Import QArith Qminmax Qabs.
From Stdlib Require Import Floats.
From stdpp Require Import base option list.
Import ListNotations.

Local Open Scope Z_scope.

(** * Part I: the model *)

(** ** JavaScript values shared by all components *)

Module JS.

(** The exceptions that the modelled code meets. *)
Inductive exn : Type :=
| RangeError
| NotSupportedError
| InvalidCharacterError
| Error (message : string)
| RemoteFailure.

(** Outcome of evaluating a piece of code: a value, or a thrown exception
    (for an [async] function: a fulfilled or a rejected promise, seen from
    the [await]). *)
Inductive completion (A : Type) : Type :=
| Return (a : A)
| Throw (e : exn).

Arguments Return {A} a.
Arguments Throw {A} e.

Definition bind {A B : Type} (c : completion A) (k : A -> completion B) : completion B :=
  match c with
  | Return a => k a
  | Throw e => Throw e
  end.

Definition number : Type := float.

(** An integer as a number; exact for every |z| < 2^53. *)
Definition Z2F (z : Z) : number :=
  if z <? 0 then PrimFloat.opp (PrimFloat.of_uint63 (Uint63.of_Z (- z)))
  else PrimFloat.of_uint63 (Uint63.of_Z z).

(** [Math.min] with two arguments: NaN if either is NaN, otherwise the
    smaller one, -0 counting as smaller than +0. *)
Definition Math_min (x y : number) : number :=
  if PrimFloat.is_nan x || PrimFloat.is_nan y then PrimFloat.nan
  else if PrimFloat.ltb x y then x
  else if PrimFloat.ltb y x then y
  else if PrimFloat.get_sign x then x else y.

(** [Math.fround], which is also what a store into a [Float32Array]
    does: round to the nearest binary32 value, ties to even. *)
Definition fround (x : number) : number :=
  match Prim2SF x with
  | S754_finite s m e => SF2Prim (binary_round 24 128 s m e)
  | _ => x
  end.

(** The rational a finite number stands for; [None] for NaN and the
    infinities. *)
Definition F2Q (x : number) : option Q :=
  match Prim2SF x with
  | S754_zero _ => Some 0%Q
  | S754_finite s m e =>
      let n := if s then Z.neg m else Z.pos m in
      Some (if 0 <=? e then inject_Z (n * 2 ^ e) else Qmake n (Z.to_pos (2 ^ (- e))))
  | _ => None
  end.

(** The value of one element of a [Uint8Array]. *)
Definition u8 (b : byte) : Z := Z.of_N (Byte.to_N b).

(** An [ArrayBuffer], and a [Uint8Array] over the whole of one, are their
    bytes. *)
Abbreviation ArrayBuffer := (list byte).
Abbreviation Uint8Array := (list byte).

(** Element [i] of a [Uint8Array] used as a number: out of range the read
    gives [undefined], which arithmetic turns into NaN. *)
Definition u8_at (a : Uint8Array) (i : nat) : number :=
  match a !! i with
  | Some b => Z2F (u8 b)
  | None => PrimFloat.nan
  end.

(** One element of an [Int16Array] laid over two bytes, read as a two's
    complement 16-bit integer.  A typed array uses the byte order of the
    platform; the low byte comes first on the little-endian platforms that
    browsers run on. *)
Definition int16_le (lo hi : byte) : Z :=
  let u := Z.lor (u8 lo) (Z.shiftl (u8 hi) 8) in
  if u <? 32768 then u else u - 65536.

Fixpoint int16_elements (bytes : list byte) : list Z :=
  match bytes with
  | lo :: hi :: rest => int16_le lo hi :: int16_elements rest
  | _ => []
  end.

(** [new Int16Array(buffer)]: a view over the whole buffer, refused with
    a [RangeError] when the byte length is not a multiple of the element
    size. *)
Definition new_Int16Array (buffer : ArrayBuffer) : completion (list Z) :=
  if (Z.of_nat (length buffer) mod 2 =? 0)
  then Return (int16_elements buffer)
  else Throw RangeError.

End JS.

Import JS.

(** ** Deciding statements about numbers by evaluation *)

Module Numerics.

(** [p] holds of the [n] integers from [lo] on. *)
Fixpoint forall_upto (n : nat) (p : Z -> bool) (lo : Z) : bool :=
  match n with
  | O => true
  | S n' => p lo && forall_upto n' p (lo + 1)
  end.

(** [p] holds of every integer in [lo, hi]. *)
Definition forall_between (lo hi : Z) (p : Z -> bool) : bool :=
  forall_upto (Z.to_nat (hi - lo + 1)) p lo.

(** [x] is a number in the closed unit interval; NaN is not. *)
Definition in_unit (x : number) : bool :=
  PrimFloat.leb 0%float x && PrimFloat.leb x 1%float.

(** [x] stands for exactly the rational [q]. *)
Definition exactly (q : Q) (x : number) : bool :=
  match F2Q x with
  | Some v => Qeq_bool v q
  | None => false
  end.

(** [x] is a binary64 value closest to the rational [q]: it is
    finite, and neither of its two neighbours is closer to [q]. *)
Definition nearest (q : Q) (x : number) : bool :=
  match F2Q x, F2Q (PrimFloat.next_down x), F2Q (PrimFloat.next_up x) with
  | Some v, Some below, Some above =>
      Qle_bool (Qabs (v - q)) (Qabs (below - q))
      && Qle_bool (Qabs (v - q)) (Qabs (above - q))
  | _, _, _ => false
  end.

(** The sum of the elements of a [Uint8Array], as an integer. *)
Definition total (a : Uint8Array) : Z :=
  fold_right (fun b acc => u8 b + acc) 0 a.

(** A number in binary32 format, and its two neighbours there. *)
Definition single (x : number) : spec_float :=
  match Prim2SF x with
  | S754_finite s m e => binary_round 24 128 s m e
  | sf => sf
  end.

Definition single_down (x : number) : number := SF2Prim (SFpred 24 128 (single x)).
Definition single_up (x : number) : number := SF2Prim (SFsucc 24 128 (single x)).

(** [x] is a binary32 value closest to the rational [q]: binary32
    holds it, and neither of its two neighbours in binary32 is closer to
    [q]. *)
Definition nearest_single (q : Q) (x : number) : bool :=
  PrimFloat.Leibniz.eqb (fround x) x
  && match F2Q x, F2Q (single_down x), F2Q (single_up x) with
     | Some v, Some below, Some above =>
         Qle_bool (Qabs (v - q)) (Qabs (below - q))
         && Qle_bool (Qabs (v - q)) (Qabs (above - q))
     | _, _, _ => false
     end.

End Numerics.

Import Numerics.

(** ** Level analysis: [LiveMicIndicator.tsx] and [MiniWaveform.tsx] *)

(** Both components allocate one buffer when their effect runs and let
    the analyser overwrite it at every animation frame. *)
Module AnalyserNode.

(** [new Uint8Array(length)]: [length] elements, all zero. *)
Definition new_Uint8Array (length : Z) : Uint8Array := repeat x00 (Z.to_nat length).

(** [analyzer.getByteFrequencyData(array)], the analyser holding
    [frequencyData] at this moment: the data is copied into [array] from
    the front; data for which [array] has no room is dropped, and elements
    of [array] beyond the data keep their values.  The length of [array]
    does not change. *)
Definition getByteFrequencyData (frequencyData array : Uint8Array) : Uint8Array :=
  take (length array) frequencyData ++ drop (length frequencyData) array.

(** The contents of [dataArray] at each of the frames, given what the
    analyser holds at each of them. *)
Fixpoint polls (dataArray : Uint8Array) (frames : list Uint8Array) : list Uint8Array :=
  match frames with
  | [] => []
  | frequencyData :: rest =>
      let filled := getByteFrequencyData frequencyData dataArray in
      filled :: polls filled rest
  end.

End AnalyserNode.

Module LiveMicIndicator.

(** [analyzer.fftSize = 64]; an [AnalyserNode] has half as many
    frequency bins, and [dataArray = new Uint8Array(bufferLength)] is
    created with that length. *)
Definition fftSize : Z := 64.
Definition frequencyBinCount : Z := fftSize / 2.

(** The loop [for (i = 0; i < bufferLength; i++) sum += dataArray[i]],
    from a given value of [sum]. *)
Definition sumLoop (dataArray : Uint8Array) (sum : number) : number :=
  fold_left (fun sum b => (sum + Z2F (u8 b))%float) dataArray sum.

(** [updateVolume], after [getByteFrequencyData] has filled [dataArray]:
    the value handed to [setVolume].  [bufferLength] is the length
    [dataArray] was created with. *)
Definition updateVolume (dataArray : Uint8Array) : number :=
  let bufferLength := Z2F (Z.of_nat (length dataArray)) in
  let sum := sumLoop dataArray 0%float in
  let average := (sum / bufferLength)%float in
  let normalizedVolume := Math_min 1%float (average / 128)%float in
  normalizedVolume.

(** The values handed to [setVolume] over the frames of one run of the
    effect: [dataArray = new Uint8Array(bufferLength)] with
    [bufferLength = analyzer.frequencyBinCount], polled at every frame. *)
Definition volumes (frames : list Uint8Array) : list number :=
  map updateVolume
    (AnalyserNode.polls (AnalyserNode.new_Uint8Array frequencyBinCount) frames).

End LiveMicIndicator.

Module MiniWaveform.

Definition fftSize : Z := 32.
Definition frequencyBinCount : Z := fftSize / 2.

(** [update], after [getByteFrequencyData]: the three levels handed to
    [setLevels]. *)
Definition update (dataArray : Uint8Array) : list number :=
  let b1 := (u8_at dataArray 1 / 255)%float in
  let b2 := (u8_at dataArray 4 / 255)%float in
  let b3 := (u8_at dataArray 8 / 255)%float in
  [b1; b2; b3].

(** The values handed to [setLevels] over the frames of one run of the
    effect: [dataArray = new Uint8Array(analyzer.frequencyBinCount)],
    polled at every frame. *)
Definition levels (frames : list Uint8Array) : list (list number) :=
  map update
    (AnalyserNode.polls (AnalyserNode.new_Uint8Array frequencyBinCount) frames).

End MiniWaveform.

(** ** Speech synthesis client: [GeminiService.speak] *)

Module GeminiService.

(** The fields of the response that [speak] reads.  A field that may be
    [undefined] is an [option]. *)
Record InlineData : Type := { data : option string }.
Record Part : Type := { inlineData : option InlineData }.
Record Content : Type := { parts : option (list Part) }.
Record Candidate : Type := { content : option Content }.
Record GenerateContentResponse : Type := { candidates : option (list Candidate) }.

(** [response.candidates?.[0]?.content?.parts?.[0]?.inlineData?.data] *)
Definition inlineAudio (response : GenerateContentResponse) : option string :=
  cs ← candidates response;
  c ← head cs;
  ct ← content c;
  ps ← parts ct;
  p ← head ps;
  d ← inlineData p;
  data d.

(** The response carries the string [base64] as the inline data of the
    first part of its first candidate. *)
Definition carries (response : GenerateContentResponse) (base64 : string) : Prop :=
  exists c cs ct p ps d,
    candidates response = Some (c :: cs)
    /\ content c = Some ct
    /\ parts ct = Some (p :: ps)
    /\ inlineData p = Some d
    /\ data d = Some base64.

(** [!base64Audio]: of the values this expression can take, [undefined]
    and the empty string are falsy, every other string is truthy. *)
Definition falsy (v : option string) : bool :=
  match v with
  | None => true
  | Some EmptyString => true
  | Some (String _ _) => false
  end.

(** *** [atob]: the forgiving base64 decoder of the platform *)

Definition is_ascii_whitespace (c : ascii) : bool :=
  let n := nat_of_ascii c in
  (n =? 9)%nat || (n =? 10)%nat || (n =? 12)%nat || (n =? 13)%nat || (n =? 32)%nat.

Fixpoint strip_whitespace (s : string) : string :=
  match s with
  | EmptyString => EmptyString
  | String c rest =>
      if is_ascii_whitespace c then strip_whitespace rest
      else String c (strip_whitespace rest)
  end.

(** The 6-bit value of a character of the base64 alphabet. *)
Definition sextet (c : ascii) : option Z :=
  let n := Z.of_nat (nat_of_ascii c) in
  if (65 <=? n) && (n <=? 90) then Some (n - 65)
  else if (97 <=? n) && (n <=? 122) then Some (n - 71)
  else if (48 <=? n) && (n <=? 57) then Some (n + 4)
  else if n =? 43 then Some 62
  else if n =? 47 then Some 63
  else None.

Fixpoint sextets (s : string) : option (list Z) :=
  match s with
  | EmptyString => Some []
  | String c rest =>
      match sextet c, sextets rest with
      | Some v, Some vs => Some (v :: vs)
      | _, _ => None
      end
  end.

(** With the length a multiple of four, one or two trailing [=] are
    dropped. *)
Definition strip_padding (s : string) : string :=
  let n := String.length s in
  if (n mod 4 =? 0)%nat then
    if (2 <=? n)%nat && String.eqb (substring (n - 2) 2 s) "=="%string then substring 0 (n - 2) s
    else if (1 <=? n)%nat && String.eqb (substring (n - 1) 1 s) "="%string then substring 0 (n - 1) s
    else s
  else s.

Definition char_of_code (z : Z) : ascii := ascii_of_nat (Z.to_nat (Z.land z 255)).

(** 24 bits at a time become three characters; a rest of 12 bits gives
    one character and a rest of 18 bits two, the low bits dropped. *)
Fixpoint decode_sextets (vs : list Z) : string :=
  match vs with
  | a :: b :: c :: d :: rest =>
      let w := Z.lor (Z.lor (Z.shiftl a 18) (Z.shiftl b 12)) (Z.lor (Z.shiftl c 6) d) in
      String (char_of_code (Z.shiftr w 16))
        (String (char_of_code (Z.shiftr w 8))
           (String (char_of_code w) (decode_sextets rest)))
  | [a; b; c] =>
      let w := Z.lor (Z.lor (Z.shiftl a 18) (Z.shiftl b 12)) (Z.shiftl c 6) in
      String (char_of_code (Z.shiftr w 16)) (String (char_of_code (Z.shiftr w 8)) EmptyString)
  | [a; b] =>
      let w := Z.lor (Z.shiftl a 18) (Z.shiftl b 12) in
      String (char_of_code (Z.shiftr w 16)) EmptyString
  | _ => EmptyString
  end.

(** [atob(data)]: the binary string, or [InvalidCharacterError].  The
    strings of this model hold characters with codes 0..255; a character
    beyond that range is outside the base64 alphabet anyway. *)
Definition atob (data : string) : completion string :=
  let s := strip_padding (strip_whitespace data) in
  if (String.length s mod 4 =? 1)%nat then Throw InvalidCharacterError
  else
    match sextets s with
    | None => Throw InvalidCharacterError
    | Some vs => Return (decode_sextets vs)
    end.

(** The loop [for (i = 0; i < len; i++) bytes[i] = binaryString.charCodeAt(i)]
    over a fresh [Uint8Array(len)]. *)
Fixpoint charCodes (binaryString : string) : Uint8Array :=
  match binaryString with
  | EmptyString => []
  | String c rest => byte_of_ascii c :: charCodes rest
  end.

Definition decodeBase64 (base64 : string) : completion ArrayBuffer :=
  bind (atob base64) (fun binaryString => Return (charCodes binaryString)).

(** [speak], from the point where [ai.models.generateContent] settles:
    [remote] is the response, or the rejection of the request. *)
Definition speak (remote : completion GenerateContentResponse) : completion ArrayBuffer :=
  bind remote (fun response =>
    match inlineAudio response with
    | Some base64Audio =>
        if falsy (Some base64Audio) then Throw (Error "No audio returned"%string)
        else decodeBase64 base64Audio
    | None => Throw (Error "No audio returned"%string)
    end).

End GeminiService.

(** ** Playback: [handleSpeak] and its [decodeRawPCM] *)

Module Playback.

(** An [AudioBuffer] with a single channel reads [getChannelData(0)];
    its length is the number of sample frames. *)
Record AudioBuffer : Type := {
  numberOfChannels : Z;
  sampleRate : Z;
  channelData : list number
}.

(** [ctx.createBuffer(numberOfChannels, length, sampleRate)]: a silent
    buffer; [NotSupportedError] when there is no channel or no frame.
    (The sample rate the modelled call passes, 24000, is in the range
    every implementation accepts.) *)
Definition createBuffer (channels : Z) (len : nat) (rate : Z) : completion AudioBuffer :=
  if (channels <? 1) || (len =? 0)%nat then Throw NotSupportedError
  else Return {| numberOfChannels := channels;
                 sampleRate := rate;
                 channelData := repeat 0%float len |}.

(** [dataInt16[i] / 32768.0] *)
Definition normalized (v : Z) : number := (Z2F v / 32768)%float.

(** The loop [for (i = 0; i < dataInt16.length; i++)
    channelData[i] = dataInt16[i] / 32768.0], from index [i], where
    [dataInt16] holds the elements from [i] on.  [channelData] is a
    [Float32Array]: the store rounds to binary32. *)
Fixpoint fillChannel (dataInt16 : list Z) (i : nat) (channelData : list number) : list number :=
  match dataInt16 with
  | [] => channelData
  | v :: rest =>
      fillChannel rest (S i) (<[i := fround (normalized v)]> channelData)
  end.

(** [decodeRawPCM(data, ctx)] for [data = new Uint8Array(audioBufferData)]:
    [data.buffer] is [audioBufferData] itself. *)
Definition decodeRawPCM (data : Uint8Array) : completion AudioBuffer :=
  bind (new_Int16Array data) (fun dataInt16 =>
  bind (createBuffer 1 (length dataInt16) 24000) (fun buffer =>
  Return {| numberOfChannels := numberOfChannels buffer;
            sampleRate := sampleRate buffer;
            channelData := fillChannel dataInt16 0 (channelData buffer) |})).

(** What [handleSpeak] acts on: the lazily created playback context
    (its sample rate), the buffers whose source nodes were started, and
    the console. *)
Record Player : Type := {
  audioContextRef : option Z;
  started : list AudioBuffer;
  console : list (string * exn)
}.

Definition initialPlayer : Player :=
  {| audioContextRef := None; started := []; console := [] |}.

(** The body of the [try] block, after the context has been created on
    first use. *)
Definition speakAndPlay (remote : completion GeminiService.GenerateContentResponse)
    (p : Player) : completion Player :=
  bind (GeminiService.speak remote) (fun audioBufferData =>
  bind (decodeRawPCM audioBufferData) (fun buffer =>
  Return {| audioContextRef := audioContextRef p;
            started := started p ++ [buffer];
            console := console p |})).

(** [handleSpeak(result)]: everything thrown inside is caught and
    logged; the function itself completes normally.  The second
    component is the completion of the call as its caller sees it. *)
Definition handleSpeak (remote : completion GeminiService.GenerateContentResponse)
    (p : Player) : Player * completion unit :=
  let p1 := {| audioContextRef :=
                 match audioContextRef p with
                 | Some ctx => Some ctx
                 | None => Some 24000
                 end;
               started := started p;
               console := console p |} in
  match speakAndPlay remote p1 with
  | Return p2 => (p2, Return tt)
  | Throw e =>
      ({| audioContextRef := audioContextRef p1;
          started := started p1;
          console := console p1 ++ [("Speech playback error:"%string, e)] |},
       Return tt)
  end.

End Playback.

(** ** Recording: the [App] component's state and handlers *)

Module App.

(** A [Blob]: its bytes and its MIME type. *)
Record Blob : Type := {
  blob_bytes : list byte;
  blob_type : string
}.

Definition size (b : Blob) : nat := length (blob_bytes b).

(** [new Blob(parts, { type })]: the bytes of the parts, in order. *)
Definition new_Blob (parts : list Blob) (type : string) : Blob :=
  {| blob_bytes := concat (map blob_bytes parts); blob_type := type |}.

Inductive RecordingState : Type := inactive | recording.

(** A [MediaRecorder] made by [startRecording].  After [stop()] the
    recorder is [inactive] and still owes its final [dataavailable] and its
    [stop] event ([stopQueued]).  [rec_context] is the [audioContext] that
    its [onstop] closure captured. *)
Record MediaRecorder : Type := {
  rec_state : RecordingState;
  stopQueued : bool;
  rec_context : nat
}.

(** The audio graph built by [startRecording]: the [AudioContext] with
    its gain node (a [GainNode] multiplies every sample by [gain.value]).
    [closeCalls] counts the calls of [audioContext.close()]. *)
Record AudioGraph : Type := {
  gain_value : number;
  closeCalls : nat
}.

(** A capture stream from [getUserMedia].  [trackStops] counts how often
    its tracks were told to stop. *)
Record MediaStream : Type := {
  trackStops : nat
}.

(** The component: React state ([isRecording], [error], [sensitivity]),
    the refs, the browser objects by identity (index into the lists), the
    [startRecording] calls suspended at [await getUserMedia] (each holds
    the [sensitivity] its closure captured), and the blobs handed to
    [handleAudioProcess]. *)
Record State : Type := {
  isRecording : bool;
  error : option string;
  sensitivity : Z;
  mediaRecorderRef : option nat;
  audioChunksRef : list Blob;
  streamRef : option nat;
  recorders : list MediaRecorder;
  contexts : list AudioGraph;
  streams : list MediaStream;
  awaiting : list Z;
  handedOff : list Blob
}.

Definition initial : State :=
  {| isRecording := false; error := None; sensitivity := 50;
     mediaRecorderRef := None; audioChunksRef := []; streamRef := None;
     recorders := []; contexts := []; streams := [];
     awaiting := []; handedOff := [] |}.

Definition set_isRecording (v : bool) (s : State) : State :=
  {| isRecording := v; error := error s; sensitivity := sensitivity s;
     mediaRecorderRef := mediaRecorderRef s; audioChunksRef := audioChunksRef s;
     streamRef := streamRef s; recorders := recorders s; contexts := contexts s;
     streams := streams s; awaiting := awaiting s; handedOff := handedOff s |}.

Definition set_error (v : option string) (s : State) : State :=
  {| isRecording := isRecording s; error := v; sensitivity := sensitivity s;
     mediaRecorderRef := mediaRecorderRef s; audioChunksRef := audioChunksRef s;
     streamRef := streamRef s; recorders := recorders s; contexts := contexts s;
     streams := streams s; awaiting := awaiting s; handedOff := handedOff s |}.

Definition set_sensitivity (v : Z) (s : State) : State :=
  {| isRecording := isRecording s; error := error s; sensitivity := v;
     mediaRecorderRef := mediaRecorderRef s; audioChunksRef := audioChunksRef s;
     streamRef := streamRef s; recorders := recorders s; contexts := contexts s;
     streams := streams s; awaiting := awaiting s; handedOff := handedOff s |}.

Definition set_mediaRecorderRef (v : option nat) (s : State) : State :=
  {| isRecording := isRecording s; error := error s; sensitivity := sensitivity s;
     mediaRecorderRef := v; audioChunksRef := audioChunksRef s;
     streamRef := streamRef s; recorders := recorders s; contexts := contexts s;
     streams := streams s; awaiting := awaiting s; handedOff := handedOff s |}.

Definition set_audioChunksRef (v : list Blob) (s : State) : State :=
  {| isRecording := isRecording s; error := error s; sensitivity := sensitivity s;
     mediaRecorderRef := mediaRecorderRef s; audioChunksRef := v;
     streamRef := streamRef s; recorders := recorders s; contexts := contexts s;
     streams := streams s; awaiting := awaiting s; handedOff := handedOff s |}.

Definition set_streamRef (v : option nat) (s : State) : State :=
  {| isRecording := isRecording s; error := error s; sensitivity := sensitivity s;
     mediaRecorderRef := mediaRecorderRef s; audioChunksRef := audioChunksRef s;
     streamRef := v; recorders := recorders s; contexts := contexts s;
     streams := streams s; awaiting := awaiting s; handedOff := handedOff s |}.

Definition set_recorders (v : list MediaRecorder) (s : State) : State :=
  {| isRecording := isRecording s; error := error s; sensitivity := sensitivity s;
     mediaRecorderRef := mediaRecorderRef s; audioChunksRef := audioChunksRef s;
     streamRef := streamRef s; recorders := v; contexts := contexts s;
     streams := streams s; awaiting := awaiting s; handedOff := handedOff s |}.

Definition set_contexts (v : list AudioGraph) (s : State) : State :=
  {| isRecording := isRecording s; error := error s; sensitivity := sensitivity s;
     mediaRecorderRef := mediaRecorderRef s; audioChunksRef := audioChunksRef s;
     streamRef := streamRef s; recorders := recorders s; contexts := v;
     streams := streams s; awaiting := awaiting s; handedOff := handedOff s |}.

Definition set_streams (v : list MediaStream) (s : State) : State :=
  {| isRecording := isRecording s; error := error s; sensitivity := sensitivity s;
     mediaRecorderRef := mediaRecorderRef s; audioChunksRef := audioChunksRef s;
     streamRef := streamRef s; recorders := recorders s; contexts := contexts s;
     streams := v; awaiting := awaiting s; handedOff := handedOff s |}.

Definition set_awaiting (v : list Z) (s : State) : State :=
  {| isRecording := isRecording s; error := error s; sensitivity := sensitivity s;
     mediaRecorderRef := mediaRecorderRef s; audioChunksRef := audioChunksRef s;
     streamRef := streamRef s; recorders := recorders s; contexts := contexts s;
     streams := streams s; awaiting := v; handedOff := handedOff s |}.

Definition set_handedOff (v : list Blob) (s : State) : State :=
  {| isRecording := isRecording s; error := error s; sensitivity := sensitivity s;
     mediaRecorderRef := mediaRecorderRef s; audioChunksRef := audioChunksRef s;
     streamRef := streamRef s; recorders := recorders s; contexts := contexts s;
     streams := streams s; awaiting := awaiting s; handedOff := v |}.

(** [gainNode.gain.value = (sensitivity / 50)]: the number that the
    gain node holds after the assignment.  The [value] of an [AudioParam]
    is a binary32 [float]: the quotient, a binary64 number, is rounded to
    binary32 when it is assigned. *)
Definition gainValue (sensitivity : Z) : number := fround (Z2F sensitivity / 50)%float.

Definition microphoneError : string :=
  "Failed to access microphone. Please check permissions."%string.

(** [startRecording] up to its [await]: [setError(null)],
    [audioChunksRef.current = []], and the call of [getUserMedia]; the
    continuation keeps the [sensitivity] of this render. *)
Definition startRecording (s : State) : State :=
  set_awaiting (awaiting s ++ [sensitivity s])
    (set_audioChunksRef [] (set_error None s)).

(** How far the rest of [startRecording] gets inside its [try] block:
    [getUserMedia] rejects; or the stream arrives and building the audio
    graph throws; or the graph is built and [new MediaRecorder] throws; or
    the recorder exists and [recorder.start()] throws; or nothing throws. *)
Inductive setup : Type :=
| AcquireFails
| GraphFails
| RecorderFails
| StartFails
| SetupSucceeds.

(** [stream = await getUserMedia(constraints); streamRef.current = stream] *)
Definition acquire (s : State) : State :=
  set_streamRef (Some (length (streams s)))
    (set_streams (streams s ++ [{| trackStops := 0 |}]) s).

(** [new AudioContext()], source, gain node with its value, destination. *)
Definition buildGraph (sensitivity : Z) (s : State) : State :=
  set_contexts
    (contexts s ++ [{| gain_value := gainValue sensitivity; closeCalls := 0 |}]) s.

(** [recorder = new MediaRecorder(destination.stream);
    mediaRecorderRef.current = recorder], and the two handlers, whose
    [onstop] closes over [audioContext]. *)
Definition makeRecorder (audioContext : nat) (s : State) : State :=
  set_mediaRecorderRef (Some (length (recorders s)))
    (set_recorders
       (recorders s ++
          [{| rec_state := inactive; stopQueued := false; rec_context := audioContext |}])
       s).

Definition started (rc : MediaRecorder) : MediaRecorder :=
  {| rec_state := recording; stopQueued := stopQueued rc; rec_context := rec_context rc |}.

(** [recorder.start(); setIsRecording(true)] for the recorder just made. *)
Definition begin (recorder : nat) (s : State) : State :=
  set_isRecording true (set_recorders (alter started recorder (recorders s)) s).

(** The [catch] block of [startRecording]: a console message and
    [setError(...)], nothing else. *)
Definition failed (s : State) : State := set_error (Some microphoneError) s.

(** [startRecording] from its [await] on. *)
Definition resume (sensitivity : Z) (outcome : setup) (s : State) : State :=
  let s1 := acquire s in
  let audioContext := length (contexts s1) in
  let s2 := buildGraph sensitivity s1 in
  let recorder := length (recorders s2) in
  let s3 := makeRecorder audioContext s2 in
  match outcome with
  | AcquireFails => failed s
  | GraphFails => failed s1
  | RecorderFails => failed s2
  | StartFails => failed s3
  | SetupSucceeds => begin recorder s3
  end.

(** [recorder.ondataavailable]:
    [if (e.data.size > 0) audioChunksRef.current.push(e.data)]. *)
Definition ondataavailable (data : Blob) (s : State) : State :=
  if (0 <? size data)%nat then set_audioChunksRef (audioChunksRef s ++ [data]) s
  else s.

(** [handleAudioProcess(blob)], as far as the recorder is concerned: the
    blob is taken over for analysis and the error banner is cleared. *)
Definition handleAudioProcess (blob : Blob) (s : State) : State :=
  set_error None (set_handedOff (handedOff s ++ [blob]) s).

Definition closed (g : AudioGraph) : AudioGraph :=
  {| gain_value := gain_value g; closeCalls := S (closeCalls g) |}.

(** [recorder.onstop] of a recorder whose closure holds [audioContext]. *)
Definition onstop (audioContext : nat) (s : State) : State :=
  let audioBlob := new_Blob (audioChunksRef s) "audio/webm"%string in
  let s1 := handleAudioProcess audioBlob s in
  set_contexts (alter closed audioContext (contexts s1)) s1.

Definition stopped (rc : MediaRecorder) : MediaRecorder :=
  {| rec_state := inactive; stopQueued := true; rec_context := rec_context rc |}.

Definition settled (rc : MediaRecorder) : MediaRecorder :=
  {| rec_state := rec_state rc; stopQueued := false; rec_context := rec_context rc |}.

Definition tracksStopped (m : MediaStream) : MediaStream :=
  {| trackStops := S (trackStops m) |}.

(** [stopRecording] *)
Definition stopRecording (s : State) : State :=
  let s1 :=
    match mediaRecorderRef s with
    | Some r =>
        match recorders s !! r with
        | Some rc =>
            match rec_state rc with
            | recording => set_recorders (alter stopped r (recorders s)) s
            | inactive => s
            end
        | None => s
        end
    | None => s
    end in
  let s2 :=
    match streamRef s1 with
    | Some m => set_streams (alter tracksStopped m (streams s1)) s1
    | None => s1
    end in
  set_isRecording false s2.

(** What can happen to the component: the slider of the settings panel
    calls [onSensitivityChange]; the button calls [startRecording] or
    [stopRecording]; the [getUserMedia] promise of the [k]-th suspended
    [startRecording] settles; recorder [r] fires [dataavailable] or
    [stop]. *)
Inductive event : Type :=
| SetSensitivity (val : Z)
| StartRecording
| UserMediaSettled (k : nat) (outcome : setup)
| DataAvailable (r : nat) (data : Blob)
| Stopped (r : nat)
| StopRecording.

(** A recorder fires [dataavailable] while it records and once more
    after [stop()]; it fires [stop] once after [stop()]. *)
Definition delivers (rc : MediaRecorder) : bool :=
  match rec_state rc with
  | recording => true
  | inactive => stopQueued rc
  end.

Definition step (s : State) (e : event) : State :=
  match e with
  | SetSensitivity val => set_sensitivity val s
  | StartRecording => startRecording s
  | UserMediaSettled k outcome =>
      match awaiting s !! k with
      | Some sensitivity => resume sensitivity outcome (set_awaiting (delete k (awaiting s)) s)
      | None => s
      end
  | DataAvailable r data =>
      match recorders s !! r with
      | Some rc => if delivers rc then ondataavailable data s else s
      | None => s
      end
  | Stopped r =>
      match recorders s !! r with
      | Some rc =>
          if stopQueued rc
          then onstop (rec_context rc) (set_recorders (alter settled r (recorders s)) s)
          else s
      | None => s
      end
  | StopRecording => stopRecording s
  end.

Definition run (s : State) (trace : list event) : State := fold_left step trace s.

(** One recording from start to handoff, begun in state [s]: the button
    is pressed, the stream arrives and the setup runs through, the new
    recorder delivers [chunks] one by one, the button is released, and the
    recorder fires [stop]. *)
Definition recordingSession (s : State) (chunks : list Blob) : list event :=
  [StartRecording; UserMediaSettled (length (awaiting s)) SetupSucceeds]
  ++ map (DataAvailable (length (recorders s))) chunks
  ++ [StopRecording; Stopped (length (recorders s))].

(** The gain in force for the recorder that [mediaRecorderRef] holds. *)
Definition liveGain (s : State) : option number :=
  r ← mediaRecorderRef s;
  rc ← recorders s !! r;
  g ← contexts s !! rec_context rc;
  Some (gain_value g).

Definition isRecorderActive (rc : MediaRecorder) : bool :=
  match rec_state rc with
  | recording => true
  | inactive => false
  end.

(** No recorder records and no [startRecording] is suspended. *)
Definition idle (s : State) : bool :=
  forallb (fun rc => negb (isRecorderActive rc)) (recorders s)
  && (length (awaiting s) =? 0)%nat.

(** The number of recorders that are recording. *)
Definition activeRecorders (s : State) : nat :=
  length (List.filter isRecorderActive (recorders s)).

(** The number of recorders that can append to the chunk buffer:
    those that are recording, and those that were stopped and have yet to
    deliver their last chunk and their [stop] event. *)
Definition appendingRecorders (s : State) : nat :=
  length (List.filter delivers (recorders s)).

(** No recorder can append and no [startRecording] is suspended. *)
Definition atRest (s : State) : bool :=
  forallb (fun rc => negb (delivers rc)) (recorders s)
  && (length (awaiting s) =? 0)%nat.

(** The states of the runs in which the button starts a recording only
    while the component is at rest. *)
Inductive startsAtRest : State -> Prop :=
| startsAtRest_initial : startsAtRest initial
| startsAtRest_step (s : State) (e : event) :
    startsAtRest s ->
    (e = StartRecording -> atRest s = true) ->
    startsAtRest (step s e).

(** The first audio graph is open and no recorder's [onstop] holds it. *)
Definition graph0_orphaned (s : State) : Prop :=
  (exists g, contexts s !! 0%nat = Some g /\ closeCalls g = 0%nat)
  /\ Forall (fun rc => rec_context rc <> 0%nat) (recorders s).

End App.

(** ** The level analyzer as the specification words it *)

Module LevelSpec.

(** "Mean magnitude across all bins", over the rationals. *)
Definition meanMagnitude (bins : list Z) : Q :=
  (inject_Z (fold_right Z.add 0%Z bins) / inject_Z (Z.of_nat (length bins)))%Q.

(** "... dividing by a fixed reference ceiling, e.g. 128 on a 0-255
    magnitude scale, then clamped to 1.0". *)
Definition scalarVolume (bins : list Z) : Q :=
  Qmin 1 (meanMagnitude bins / 128)%Q.

(** A band level: the bin at a representative index, "normalized by
    dividing by the transform's maximum representable magnitude". *)
Definition bandLevel (bins : list Z) (index : nat) : option Q :=
  bin ← bins !! index; Some (inject_Z bin / 255)%Q.

(** The low, mid and high representative bins. *)
Definition bandIndices : list nat := [1; 4; 8]%nat.

End LevelSpec.

(** ** Concrete inputs used in examples *)

Module Fixtures.

Import App.

Definition c1 : Blob := {| blob_bytes := [x1a; x45]; blob_type := "audio/webm"%string |}.
Definition c2 : Blob := {| blob_bytes := [xdf]; blob_type := "audio/webm"%string |}.
Definition c3 : Blob := {| blob_bytes := [xa3; x42; x86]; blob_type := "audio/webm"%string |}.

(** The button is pressed a second time while the first recording runs;
    both recorders then deliver a chunk. *)
Definition doubleStart : list event :=
  [StartRecording; UserMediaSettled 0 SetupSucceeds;
   StartRecording; UserMediaSettled 0 SetupSucceeds;
   DataAvailable 0 c1; DataAvailable 1 c2].

(** The stream arrives, the audio graph is built, and
    [new MediaRecorder] throws. *)
Definition failedSetup : list event :=
  [StartRecording; UserMediaSettled 0 RecorderFails].

Definition recordingInProgress : list event :=
  [StartRecording; UserMediaSettled 0 SetupSucceeds; DataAvailable 0 c1].

(** Two recordings one after the other, the second begun after the
    first recorder has fired [stop]. *)
Definition twoRecordings : list event :=
  [StartRecording; UserMediaSettled 0 SetupSucceeds; DataAvailable 0 c1;
   StopRecording; DataAvailable 0 c2; Stopped 0;
   StartRecording; UserMediaSettled 0 SetupSucceeds; DataAvailable 1 c3].

(** The button is released and pressed again before the first recorder
    has delivered its last chunk: the chunk arrives during the second
    recording, and each recorder then fires [stop]. *)
Definition restartBeforeStopEvent : list event :=
  [StartRecording; UserMediaSettled 0 SetupSucceeds; StopRecording;
   StartRecording; UserMediaSettled 0 SetupSucceeds;
   DataAvailable 0 c1; Stopped 0;
   DataAvailable 1 c2; StopRecording; Stopped 1].

(** A response whose first part carries the inline data [base64]. *)
Definition audioResponse (base64 : string) : GeminiService.GenerateContentResponse :=
  {| GeminiService.candidates :=
       Some [{| GeminiService.content :=
                  Some {| GeminiService.parts :=
                            Some [{| GeminiService.inlineData :=
                                       Some {| GeminiService.data := Some base64 |} |}] |} |}] |}.

(** "AIAA" is the bytes 00 80 00; "AIAAAA==" is the bytes 00 80 00 00. *)
Definition three_byte_response : GeminiService.GenerateContentResponse :=
  audioResponse "AIAA"%string.

Definition four_byte_response : GeminiService.GenerateContentResponse :=
  audioResponse "AIAAAA=="%string.

End Fixtures.

(** ** Playback: further definitions *)

Module PlaybackMore.
Import Playback.

(** A sample of a decoded buffer lies in [-1, 1). *)
Definition in_sample_range (x : number) : bool :=
  PrimFloat.leb (-1)%float x && PrimFloat.ltb x 1%float.

(** [handleSpeak] once for each of the outcomes, in order (the replay
    button may be pressed any number of times). *)
Definition handleSpeakAll (remotes : list (completion GeminiService.GenerateContentResponse))
    (p : Player) : Player :=
  fold_left (fun p remote => fst (handleSpeak remote p)) remotes p.

End PlaybackMore.
Import PlaybackMore.

(** ** Recording: further definitions *)

Module AppMore.
Import App.

(** The number of recorders that owe their [stop] event. *)
Definition queuedStops (s : State) : nat :=
  length (List.filter stopQueued (recorders s)).

Definition isStopRecording (e : event) : bool :=
  match e with
  | StopRecording => true
  | _ => false
  end.

(** How often the button was released in a run. *)
Definition countStops (trace : list event) : nat :=
  length (List.filter isStopRecording trace).

End AppMore.
Import AppMore.

(** ** The settings panel: [SettingsPanel.tsx] *)

Module SettingsPanel.

Record MediaDeviceInfo : Type := {
  kind : string;
  deviceId : string;
  label : string
}.

(** A string in a condition: the empty string is falsy. *)
Definition truthy (s : string) : bool := negb (String.eqb s EmptyString).

Definition isAudioInput (d : MediaDeviceInfo) : bool :=
  String.eqb (kind d) "audioinput"%string.

(** [audioInputs.find(d => d.deviceId === 'default') || audioInputs[0]] *)
Definition defaultDevice (audioInputs : list MediaDeviceInfo) : option MediaDeviceInfo :=
  match List.find (fun d => String.eqb (deviceId d) "default"%string) audioInputs with
  | Some d => Some d
  | None => head audioInputs
  end.

(** What [refreshDevices] writes: the [devices] state of the panel and,
    through [onDeviceChange], the [selectedDeviceId] state of the
    application. *)
Record Selection : Type := {
  devices : list MediaDeviceInfo;
  selectedDeviceId : string
}.

(** [refreshDevices], as the closure of a render in which
    [selectedDeviceId] was [captured]: [permission] is how the
    [getUserMedia] call settles and [enumerated] how [enumerateDevices]
    does.  Any rejection ends in the [catch] block, which only logs. *)
Definition refreshDevices (captured : string)
    (permission : completion unit) (enumerated : completion (list MediaDeviceInfo))
    (st : Selection) : Selection :=
  match permission, enumerated with
  | Return _, Return devList =>
      let audioInputs := List.filter isAudioInput devList in
      let st1 := {| devices := audioInputs; selectedDeviceId := selectedDeviceId st |} in
      if (0 <? length audioInputs)%nat && negb (truthy captured) then
        match defaultDevice audioInputs with
        | Some d => {| devices := audioInputs; selectedDeviceId := deviceId d |}
        | None => st1
        end
      else st1
  | _, _ => st
  end.

(** The panel with the effect that depends on [isOpen]: on opening it
    calls [refreshDevices] and registers it for [devicechange]; the cleanup
    removes it.  The registered closure is the one of the render that
    opened the panel: [listener] is the [selectedDeviceId] it holds. *)
Record Panel : Type := {
  isOpen : bool;
  selection : Selection;
  listener : option string
}.

Inductive panelEvent : Type :=
| Open (permission : completion unit) (enumerated : completion (list MediaDeviceInfo))
| Close
| Select (id : string)
| DeviceChange (permission : completion unit) (enumerated : completion (list MediaDeviceInfo)).

Definition panelStep (p : Panel) (e : panelEvent) : Panel :=
  match e with
  | Open permission enumerated =>
      if isOpen p then p
      else
        let captured := selectedDeviceId (selection p) in
        {| isOpen := true;
           selection := refreshDevices captured permission enumerated (selection p);
           listener := Some captured |}
  | Close => {| isOpen := false; selection := selection p; listener := None |}
  | Select id =>
      {| isOpen := isOpen p;
         selection := {| devices := devices (selection p); selectedDeviceId := id |};
         listener := listener p |}
  | DeviceChange permission enumerated =>
      match listener p with
      | Some captured =>
          {| isOpen := isOpen p;
             selection := refreshDevices captured permission enumerated (selection p);
             listener := listener p |}
      | None => p
      end
  end.

Definition panelRun (p : Panel) (trace : list panelEvent) : Panel :=
  fold_left panelStep trace p.

(** *** The preview stream: the effect that depends on
    [selectedDeviceId] and [isOpen] *)

(** [stream] is the state of the panel; [effectStream] is the [stream]
    that the closure of the effect last run holds (its cleanup stops that
    one); [acquiring] counts the [getUserMedia] calls of
    [updatePreviewStream] that have not settled. *)
Record Preview : Type := {
  previewOpen : bool;
  previewDevice : string;
  stream : option nat;
  effectStream : option nat;
  previewStreams : list App.MediaStream;
  acquiring : nat
}.

Definition initialPreview : Preview :=
  {| previewOpen := false; previewDevice := EmptyString; stream := None;
     effectStream := None; previewStreams := []; acquiring := 0 |}.

(** [if (stream) stream.getTracks().forEach(t => t.stop())] *)
Definition stopTracks (m : option nat) (streams : list App.MediaStream) : list App.MediaStream :=
  match m with
  | Some i => alter App.tracksStopped i streams
  | None => streams
  end.

Inductive previewEvent : Type :=
| Props (open : bool) (device : string)
| Acquired
| AcquireFailed.

(** A render with new props runs the cleanup of the previous effect and
    then [updatePreviewStream] up to its [await], when a dependency
    changed; a settled [getUserMedia] continues it. *)
Definition previewStep (p : Preview) (e : previewEvent) : Preview :=
  match e with
  | Props open device =>
      if Bool.eqb open (previewOpen p) && String.eqb device (previewDevice p) then p
      else
        let cleaned := stopTracks (effectStream p) (previewStreams p) in
        let streams := stopTracks (stream p) cleaned in
        if open then
          {| previewOpen := open; previewDevice := device; stream := stream p;
             effectStream := stream p; previewStreams := streams;
             acquiring := S (acquiring p) |}
        else
          {| previewOpen := open; previewDevice := device; stream := None;
             effectStream := stream p; previewStreams := streams;
             acquiring := acquiring p |}
  | Acquired =>
      match acquiring p with
      | S n =>
          {| previewOpen := previewOpen p; previewDevice := previewDevice p;
             stream := Some (length (previewStreams p));
             effectStream := effectStream p;
             previewStreams := previewStreams p ++ [{| App.trackStops := 0 |}];
             acquiring := n |}
      | O => p
      end
  | AcquireFailed =>
      match acquiring p with
      | S n =>
          {| previewOpen := previewOpen p; previewDevice := previewDevice p;
             stream := stream p; effectStream := effectStream p;
             previewStreams := previewStreams p; acquiring := n |}
      | O => p
      end
  end.

Definition isLive (m : App.MediaStream) : bool := (App.trackStops m =? 0)%nat.

Definition isProps (e : previewEvent) : bool :=
  match e with
  | Props _ _ => true
  | _ => false
  end.

(** The states of the runs in which the props change only while no
    [getUserMedia] call of the preview is pending. *)
Inductive settledPreview : Preview -> Prop :=
| settledPreview_initial : settledPreview initialPreview
| settledPreview_step (p : Preview) (e : previewEvent) :
    settledPreview p ->
    (isProps e = true -> acquiring p = 0%nat) ->
    settledPreview (previewStep p e).

(** What the preview keeps when the props change only between
    acquisitions. *)
Definition previewInv (p : Preview) : Prop :=
  (acquiring p <= 1)%nat
  /\ (acquiring p = 1%nat -> previewOpen p = true)
  /\ (forall i m, previewStreams p !! i = Some m -> isLive m = true ->
        stream p = Some i /\ acquiring p = 0%nat /\ previewOpen p = true).

End SettingsPanel.

(** ** The effect of the two analyzer components *)

(** [LiveMicIndicator] and [MiniWaveform] run the same effect, which
    depends on [stream] and [isActive]: build an analyser on a new audio
    context and tick once per animation frame, or, when inactive, cancel
    the frame and close the context.  They differ in what a tick computes
    ([tick]) and in what the inactive branch does to the displayed value
    ([reset]: [setVolume(0)] in the first, nothing in the second). *)

Module AnalyzerEffect.

Section Effect.

Context {V : Type}.
Variable tick : Uint8Array -> V.
Variable reset : V -> V.

(** The displayed [value]; the three refs; per audio context the number
    of [close()] calls; the animation frames requested and neither run nor
    cancelled; the next request id (ids are non-zero); the dependencies of
    the effect last run; whether that effect returned a cleanup. *)
Record Analyzer : Type := {
  value : V;
  analyzerRef : option nat;
  animationFrameRef : option nat;
  audioContextRef : option nat;
  graphCloses : list nat;
  pendingFrames : list nat;
  nextFrame : nat;
  deps : option (option nat * bool);
  cleanupArmed : bool
}.

(** [if (animationFrameRef.current) cancelAnimationFrame(...)] *)
Definition cancelFrame (ref : option nat) (pending : list nat) : list nat :=
  match ref with
  | Some id => if (0 <? id)%nat then List.filter (fun j => negb (j =? id)%nat) pending
               else pending
  | None => pending
  end.

(** [if (audioContextRef.current) audioContextRef.current.close()] *)
Definition closeGraph (ref : option nat) (closes : list nat) : list nat :=
  match ref with
  | Some c => alter S c closes
  | None => closes
  end.

(** [updateVolume] / [update]: nothing without an analyser; otherwise
    the new value is set and the next frame is requested. *)
Definition onFrame (data : Uint8Array) (a : Analyzer) : Analyzer :=
  match analyzerRef a with
  | None => a
  | Some _ =>
      {| value := tick data;
         analyzerRef := analyzerRef a;
         animationFrameRef := Some (nextFrame a);
         audioContextRef := audioContextRef a;
         graphCloses := graphCloses a;
         pendingFrames := pendingFrames a ++ [nextFrame a];
         nextFrame := S (nextFrame a);
         deps := deps a;
         cleanupArmed := cleanupArmed a |}
  end.

(** What both the cleanup and the inactive branch do. *)
Definition release (a : Analyzer) : Analyzer :=
  {| value := value a;
     analyzerRef := analyzerRef a;
     animationFrameRef := animationFrameRef a;
     audioContextRef := audioContextRef a;
     graphCloses := closeGraph (audioContextRef a) (graphCloses a);
     pendingFrames := cancelFrame (animationFrameRef a) (pendingFrames a);
     nextFrame := nextFrame a;
     deps := deps a;
     cleanupArmed := cleanupArmed a |}.

Definition isInactive (stream : option nat) (isActive : bool) : bool :=
  negb isActive || match stream with None => true | Some _ => false end.

(** The body of the effect for the given props; [data] is what the
    analyser yields for the tick that the active branch runs at once. *)
Definition effect (stream : option nat) (isActive : bool) (data : Uint8Array)
    (a : Analyzer) : Analyzer :=
  if isInactive stream isActive then
    let r := release a in
    {| value := reset (value r);
       analyzerRef := analyzerRef r;
       animationFrameRef := animationFrameRef r;
       audioContextRef := audioContextRef r;
       graphCloses := graphCloses r;
       pendingFrames := pendingFrames r;
       nextFrame := nextFrame r;
       deps := Some (stream, isActive);
       cleanupArmed := false |}
  else
    let audioContext := length (graphCloses a) in
    onFrame data
      {| value := value a;
         analyzerRef := Some audioContext;
         animationFrameRef := animationFrameRef a;
         audioContextRef := Some audioContext;
         graphCloses := graphCloses a ++ [0%nat];
         pendingFrames := pendingFrames a;
         nextFrame := nextFrame a;
         deps := Some (stream, isActive);
         cleanupArmed := true |}.

Definition cleanup (a : Analyzer) : Analyzer :=
  if cleanupArmed a then release a else a.

Inductive event : Type :=
| Render (stream : option nat) (isActive : bool) (data : Uint8Array)
| Frame (id : nat) (data : Uint8Array)
| Unmount.

Definition sameDeps (d : option (option nat * bool)) (stream : option nat) (isActive : bool) : bool :=
  match d with
  | Some (Some i, b) =>
      match stream with
      | Some j => (i =? j)%nat && Bool.eqb b isActive
      | None => false
      end
  | Some (None, b) =>
      match stream with
      | Some _ => false
      | None => Bool.eqb b isActive
      end
  | None => false
  end.

Definition unmounted (a : Analyzer) : Analyzer :=
  {| value := value a;
     analyzerRef := analyzerRef a;
     animationFrameRef := animationFrameRef a;
     audioContextRef := audioContextRef a;
     graphCloses := graphCloses a;
     pendingFrames := pendingFrames a;
     nextFrame := nextFrame a;
     deps := None;
     cleanupArmed := false |}.

Definition removeFrame (id : nat) (a : Analyzer) : Analyzer :=
  {| value := value a;
     analyzerRef := analyzerRef a;
     animationFrameRef := animationFrameRef a;
     audioContextRef := audioContextRef a;
     graphCloses := graphCloses a;
     pendingFrames := List.filter (fun j => negb (j =? id)%nat) (pendingFrames a);
     nextFrame := nextFrame a;
     deps := deps a;
     cleanupArmed := cleanupArmed a |}.

(** A render runs the effect when a dependency changed, after the
    cleanup of the previous run; the browser runs the callback of a pending
    frame; unmounting runs the cleanup. *)
Definition step (a : Analyzer) (e : event) : Analyzer :=
  match e with
  | Render stream isActive data =>
      if sameDeps (deps a) stream isActive then a
      else effect stream isActive data (cleanup a)
  | Frame id data =>
      if existsb (fun j => (j =? id)%nat) (pendingFrames a)
      then onFrame data (removeFrame id a)
      else a
  | Unmount => unmounted (cleanup a)
  end.

Definition run (a : Analyzer) (trace : list event) : Analyzer := fold_left step trace a.

(** The component before its first render. *)
Definition initial (v : V) : Analyzer :=
  {| value := v; analyzerRef := None; animationFrameRef := None;
     audioContextRef := None; graphCloses := []; pendingFrames := [];
     nextFrame := 1; deps := None; cleanupArmed := false |}.

Definition isFrame (e : event) : bool :=
  match e with
  | Frame _ _ => true
  | _ => false
  end.

(** What the effect keeps, for a property [P] of every reset value. *)
Variable P : V -> Prop.

Definition effectInv (a : Analyzer) : Prop :=
  (1 <= nextFrame a)%nat
  /\ (pendingFrames a = []
      \/ (cleanupArmed a = true
          /\ exists id, pendingFrames a = [id] /\ animationFrameRef a = Some id
                        /\ (0 < id)%nat))
  /\ (cleanupArmed a = true ->
      (exists c, audioContextRef a = Some c /\ (c < length (graphCloses a))%nat
                 /\ analyzerRef a = Some c)
      /\ exists st act, deps a = Some (st, act) /\ isInactive st act = false)
  /\ (forall st act, deps a = Some (st, act) -> isInactive st act = true ->
      cleanupArmed a = false /\ P (value a)).

End Effect.

End AnalyzerEffect.

Module Lifecycle.

(** [LiveMicIndicator]: [useState(0)], a tick is [updateVolume], and the
    inactive branch calls [setVolume(0)]. *)
Definition liveMicIndicator (trace : list AnalyzerEffect.event) : AnalyzerEffect.Analyzer :=
  AnalyzerEffect.run LiveMicIndicator.updateVolume (fun _ => 0%float)
    (AnalyzerEffect.initial 0%float) trace.

(** [MiniWaveform]: [useState([0, 0, 0])], a tick is [update], and the
    inactive branch leaves the levels alone. *)
Definition miniWaveform (trace : list AnalyzerEffect.event) : AnalyzerEffect.Analyzer :=
  AnalyzerEffect.run MiniWaveform.update (fun levels => levels)
    (AnalyzerEffect.initial [0%float; 0%float; 0%float]) trace.

(** The indicator is shown for a stream, ticks twice, and is hidden. *)
Definition shownThenHidden : list AnalyzerEffect.event :=
  [AnalyzerEffect.Render (Some 0%nat) true (repeat x00 32);
   AnalyzerEffect.Frame 1 (repeat xff 32);
   AnalyzerEffect.Frame 2 (repeat x80 32);
   AnalyzerEffect.Render (Some 0%nat) false (repeat x00 32)].

Definition shown : list AnalyzerEffect.event :=
  [AnalyzerEffect.Render (Some 0%nat) true (repeat x00 32);
   AnalyzerEffect.Frame 1 (repeat xff 32)].

End Lifecycle.

(** ** What the analyzer components draw *)

Module Styles.

Set Warnings "-inexact-float".

(** [LiveMicIndicator]: the alpha of the outer glow,
    [0.2 + volume * 0.5]; of the inner glow, [0.1 + volume * 0.3]; the
    opacity of the glow layer, [0.6 + volume * 0.4]; of the orbital ring,
    [volume * 0.5]; of the bars, [0.2 + volume * 0.8]; and the scale of the
    glow layer, [1 + volume * 0.2]. *)
Definition glowAlpha (volume : number) : number := (0.2 + volume * 0.5)%float.
Definition innerGlowAlpha (volume : number) : number := (0.1 + volume * 0.3)%float.
Definition glowOpacity (volume : number) : number := (0.6 + volume * 0.4)%float.
Definition ringOpacity (volume : number) : number := (volume * 0.5)%float.
Definition barOpacity (volume : number) : number := (0.2 + volume * 0.8)%float.
Definition glowScale (volume : number) : number := (1 + volume * 0.2)%float.

(** [MiniWaveform]: the height of a bar in percent, [20 + lvl * 80]. *)
Definition barHeight (lvl : number) : number := (20 + lvl * 80)%float.

Definition between (lo hi x : number) : bool :=
  PrimFloat.leb lo x && PrimFloat.leb x hi.

Set Warnings "+inexact-float".

End Styles.

(** * Part II: the properties *)

(** ** Evaluation over integer ranges *)

Section Ranges.

Lemma forall_upto_spec (n : nat) (p : Z -> bool) (lo : Z) :
  forall_upto n p lo = true ->
  forall z, lo <= z < lo + Z.of_nat n -> p z = true.
Proof.
  revert lo; induction n as [|n IH]; intros lo H z Hz; [lia|].
  cbn [forall_upto] in H. apply andb_prop in H as [Hlo Hrest].
  destruct (Z.eq_dec z lo) as [->|Hne]; [exact Hlo|].
  apply (IH (lo + 1) Hrest). lia.
Qed.

Lemma forall_between_spec (lo hi : Z) (p : Z -> bool) :
  forall_between lo hi p = true ->
  forall z, lo <= z <= hi -> p z = true.
Proof.
  unfold forall_between. intros H z Hz.
  apply (forall_upto_spec _ _ _ H). lia.
Qed.

Lemma u8_range (b : byte) : 0 <= u8 b <= 255.
Proof. unfold u8. destruct b; vm_compute; split; discriminate. Qed.

Lemma total_range (a : Uint8Array) :
  0 <= total a <= 255 * Z.of_nat (length a).
Proof.
  induction a as [|b a IH]; cbn [total fold_right length].
  - lia.
  - fold (total a). pose proof (u8_range b). lia.
Qed.

End Ranges.

(** ** Level analysis *)

Section LevelAnalysis.

Import LiveMicIndicator MiniWaveform.

(** Adding a byte to a running sum of at most 31 bytes is exact. *)
Lemma add_byte_exact (k b : Z) :
  0 <= k <= 7905 -> 0 <= b <= 255 ->
  (Z2F k + Z2F b)%float = Z2F (k + b).
Proof.
  intros Hk Hb. apply FloatAxioms.Leibniz.eqb_spec.
  assert (H : forall_between 0 7905 (fun k =>
              forall_between 0 255 (fun b =>
                PrimFloat.Leibniz.eqb (Z2F k + Z2F b)%float (Z2F (k + b)))) = true)
    by (vm_compute; reflexivity).
  pose proof (forall_between_spec _ _ _ H k Hk) as Hk'. cbv beta in Hk'.
  exact (forall_between_spec _ _ _ Hk' b Hb).
Qed.

Lemma sumLoop_exact (dataArray : Uint8Array) (k : Z) :
  0 <= k -> k + 255 * Z.of_nat (length dataArray) <= 8160 ->
  sumLoop dataArray (Z2F k) = Z2F (k + total dataArray).
Proof.
  revert k; induction dataArray as [|b rest IH]; intros k Hk Hlen.
  - cbn. now rewrite Z.add_0_r.
  - cbn [length] in Hlen. pose proof (u8_range b) as Hb.
    change (sumLoop (b :: rest) (Z2F k))
      with (sumLoop rest (Z2F k + Z2F (u8 b))%float).
    rewrite add_byte_exact by lia.
    rewrite IH by lia.
    cbn [total fold_right]. fold (total rest). f_equal. lia.
Qed.

Lemma updateVolume_by_total (dataArray : Uint8Array) :
  (length dataArray <= 32)%nat ->
  updateVolume dataArray =
  Math_min 1%float
    (Z2F (total dataArray) / Z2F (Z.of_nat (length dataArray)) / 128)%float.
Proof.
  intros Hlen. unfold updateVolume.
  change 0%float with (Z2F 0).
  rewrite sumLoop_exact by lia. reflexivity.
Qed.

Lemma volume_in_unit (k n : Z) :
  1 <= n <= 32 -> 0 <= k <= 255 * n ->
  in_unit (Math_min 1%float (Z2F k / Z2F n / 128)%float) = true.
Proof.
  intros Hn Hk.
  assert (H : forall_between 1 32 (fun n =>
              forall_between 0 8160 (fun k =>
                negb (k <=? 255 * n)
                || in_unit (Math_min 1%float (Z2F k / Z2F n / 128)%float))) = true)
    by (vm_compute; reflexivity).
  pose proof (forall_between_spec _ _ _ H n Hn) as Hn'. cbv beta in Hn'.
  assert (Hk8 : 0 <= k <= 8160) by lia.
  pose proof (forall_between_spec _ _ _ Hn' k Hk8) as Hk'. cbv beta in Hk'.
  apply orb_prop in Hk' as [Hk'|Hk']; [|exact Hk'].
  apply negb_true_iff, Z.leb_gt in Hk'. lia.
Qed.

Lemma volume_exact (k : Z) :
  0 <= k <= 8160 ->
  exactly (Qmin 1 (inject_Z k / inject_Z 32 / 128)%Q)
          (Math_min 1%float (Z2F k / Z2F 32 / 128)%float) = true.
Proof.
  intros Hk.
  assert (H : forall_between 0 8160 (fun k =>
              exactly (Qmin 1 (inject_Z k / inject_Z 32 / 128)%Q)
                (Math_min 1%float (Z2F k / Z2F 32 / 128)%float)) = true)
    by (vm_compute; reflexivity).
  exact (forall_between_spec _ _ _ H k Hk).
Qed.

Lemma band_in_unit (b : byte) : in_unit (Z2F (u8 b) / 255)%float = true.
Proof. destruct b; vm_compute; reflexivity. Qed.

Lemma band_nearest (b : byte) :
  nearest (inject_Z (u8 b) / 255)%Q (Z2F (u8 b) / 255)%float = true.
Proof. destruct b; vm_compute; reflexivity. Qed.

Lemma u8_at_lookup (a : Uint8Array) (i : nat) :
  (i < length a)%nat -> exists b, a !! i = Some b /\ u8_at a i = Z2F (u8 b).
Proof.
  intros Hi. destruct (lookup_lt_is_Some_2 a i Hi) as [b Hb].
  exists b. unfold u8_at. now rewrite Hb.
Qed.

Lemma sum_map_u8 (a : Uint8Array) : fold_right Z.add 0 (map u8 a) = total a.
Proof. induction a as [|b a IH]; cbn; [reflexivity|]. now rewrite IH. Qed.

(** For a buffer of 1 to 32 bins the volume is a number in [0, 1], and
    for a buffer of more than 8 bins each of the three band levels is. *)
Lemma levels_in_unit (volumeBins bandBins : Uint8Array) :
  (1 <= length volumeBins <= 32)%nat ->
  (8 < length bandBins)%nat ->
  in_unit (updateVolume volumeBins) = true
  /\ length (update bandBins) = 3%nat
  /\ Forall (fun level => in_unit level = true) (update bandBins).
Proof.
  intros Hvol Hband. split; [|split].
  - rewrite updateVolume_by_total by lia.
    pose proof (total_range volumeBins).
    apply volume_in_unit; lia.
  - reflexivity.
  - unfold update.
    destruct (u8_at_lookup bandBins 1) as (b1 & _ & ->); [lia|].
    destruct (u8_at_lookup bandBins 4) as (b2 & _ & ->); [lia|].
    destruct (u8_at_lookup bandBins 8) as (b3 & _ & ->); [lia|].
    repeat constructor; apply band_in_unit.
Qed.

(** Polling never changes the length of the buffer. *)
Lemma getByteFrequencyData_length (frequencyData array : Uint8Array) :
  length (AnalyserNode.getByteFrequencyData frequencyData array) = length array.
Proof.
  unfold AnalyserNode.getByteFrequencyData.
  rewrite length_app, length_take, length_drop. lia.
Qed.

Lemma polls_length (frames : list Uint8Array) (dataArray : Uint8Array) :
  Forall (fun filled => length filled = length dataArray)
    (AnalyserNode.polls dataArray frames).
Proof.
  revert dataArray; induction frames as [|frequencyData rest IH]; intros dataArray;
    cbn [AnalyserNode.polls]; constructor.
  - apply getByteFrequencyData_length.
  - eapply Forall_impl; [apply IH|].
    intros filled Hlen. cbn beta in Hlen.
    now rewrite Hlen, getByteFrequencyData_length.
Qed.

Lemma polls_count (frames : list Uint8Array) (dataArray : Uint8Array) :
  length (AnalyserNode.polls dataArray frames) = length frames.
Proof.
  revert dataArray; induction frames as [|frequencyData rest IH]; intros dataArray;
    cbn [AnalyserNode.polls length]; [reflexivity|now rewrite IH].
Qed.

(** C5.  Whatever the analyser holds at each frame (silence, a full
    spectrum, more bins than the buffer has room for, fewer, or none at
    all), every volume that [LiveMicIndicator] hands to [setVolume] is a
    number in [0, 1], and [MiniWaveform] hands to [setLevels] three numbers
    in [0, 1]; none of them is NaN.  One value is produced per frame.  The
    buffer that the mean is taken over always has the 32 elements it was
    created with, and the buffer of the bands its 16: the mean never
    divides by zero. *)
Theorem levels_in_unit_interval (frames : list Uint8Array) :
  Forall (fun dataArray => length dataArray = 32%nat)
    (AnalyserNode.polls
       (AnalyserNode.new_Uint8Array LiveMicIndicator.frequencyBinCount) frames)
  /\ length (volumes frames) = length frames
  /\ Forall (fun volume => in_unit volume = true) (volumes frames)
  /\ Forall (fun dataArray => length dataArray = 16%nat)
       (AnalyserNode.polls
          (AnalyserNode.new_Uint8Array MiniWaveform.frequencyBinCount) frames)
  /\ length (levels frames) = length frames
  /\ Forall (fun bands =>
               length bands = 3%nat /\ Forall (fun level => in_unit level = true) bands)
       (levels frames).
Proof.
  pose proof (polls_length frames
                (AnalyserNode.new_Uint8Array LiveMicIndicator.frequencyBinCount)) as Hvol.
  pose proof (polls_length frames
                (AnalyserNode.new_Uint8Array MiniWaveform.frequencyBinCount)) as Hband.
  change (length (AnalyserNode.new_Uint8Array LiveMicIndicator.frequencyBinCount))
    with 32%nat in Hvol.
  change (length (AnalyserNode.new_Uint8Array MiniWaveform.frequencyBinCount))
    with 16%nat in Hband.
  split; [exact Hvol|]. split; [|split; [|split; [exact Hband|split]]].
  - unfold volumes. now rewrite length_map, polls_count.
  - unfold volumes. apply Forall_fmap.
    eapply Forall_impl; [exact Hvol|].
    intros dataArray Hlen. cbn beta in Hlen.
    apply (levels_in_unit dataArray (repeat x00 9)); [lia|cbn; lia].
  - unfold levels. now rewrite length_map, polls_count.
  - unfold levels. apply Forall_fmap.
    eapply Forall_impl; [exact Hband|].
    intros dataArray Hlen. cbn beta in Hlen.
    destruct (levels_in_unit (repeat x00 1) dataArray) as (_ & Hthree & Hunit);
      [cbn; lia|lia|].
    split; assumption.
Qed.

(** Silence gives volume 0 and bands at 0, the loudest spectrum gives
    volume 1 and bands at 1; and when the analyser supplies no bins at all
    the buffers keep what the frame before left in them. *)
Example levels_of_silence_and_of_no_bins :
  volumes [repeat x00 32; repeat xff 32; []] = [0%float; 1%float; 1%float]
  /\ levels [repeat x00 16; repeat xff 16; []] =
       [[0%float; 0%float; 0%float]; [1%float; 1%float; 1%float];
        [1%float; 1%float; 1%float]]
  /\ volumes [[]] = [0%float]
  /\ levels [[]] = [[0%float; 0%float; 0%float]].
Proof. vm_compute. repeat split; reflexivity. Qed.

(** C6.  With the analyzers' bin counts (32 for the volume, 16 for the
    bands), the volume computed by [updateVolume] is exactly the rational
    the specification describes: the mean of the bins, divided by 128,
    clamped to 1; and the three levels computed by [update] are the bins
    1, 4 and 8 divided by 255, each the binary64 value closest to that
    quotient. *)
Theorem levels_refine_specification (volumeBins bandBins : Uint8Array) :
  Z.of_nat (length volumeBins) = LiveMicIndicator.frequencyBinCount ->
  Z.of_nat (length bandBins) = MiniWaveform.frequencyBinCount ->
  exactly (LevelSpec.scalarVolume (map u8 volumeBins)) (updateVolume volumeBins) = true
  /\ Forall2
       (fun index level =>
          exists bin q,
            map u8 bandBins !! index = Some bin
            /\ LevelSpec.bandLevel (map u8 bandBins) index = Some q
            /\ level = (Z2F bin / 255)%float
            /\ nearest q level = true)
       LevelSpec.bandIndices (update bandBins).
Proof.
  intros Hvol Hband.
  change LiveMicIndicator.frequencyBinCount with 32 in Hvol.
  change MiniWaveform.frequencyBinCount with 16 in Hband.
  split.
  - rewrite updateVolume_by_total by lia.
    unfold LevelSpec.scalarVolume, LevelSpec.meanMagnitude.
    rewrite sum_map_u8, length_map, Hvol.
    pose proof (total_range volumeBins).
    apply volume_exact. lia.
  - assert (Hlevel : forall index, (index < length bandBins)%nat ->
        exists bin q,
          map u8 bandBins !! index = Some bin
          /\ LevelSpec.bandLevel (map u8 bandBins) index = Some q
          /\ (u8_at bandBins index / 255)%float = (Z2F bin / 255)%float
          /\ nearest q (u8_at bandBins index / 255)%float = true).
    { intros index Hi.
      destruct (u8_at_lookup bandBins index Hi) as (b & Hb & ->).
      exists (u8 b), (inject_Z (u8 b) / 255)%Q.
      assert (Hmap : map u8 bandBins !! index = Some (u8 b))
        by (rewrite list_lookup_fmap, Hb; reflexivity).
      unfold LevelSpec.bandLevel. rewrite Hmap.
      repeat split; try reflexivity. apply band_nearest. }
    unfold update, LevelSpec.bandIndices.
    repeat constructor; apply Hlevel; lia.
Qed.

Lemma levels_refine_specification_witness :
  exactly (LevelSpec.scalarVolume (map u8 (repeat xc8 32)))
    (updateVolume (repeat xc8 32)) = true
  /\ Forall2
       (fun index level =>
          exists bin q,
            map u8 (repeat x64 16) !! index = Some bin
            /\ LevelSpec.bandLevel (map u8 (repeat x64 16)) index = Some q
            /\ level = (Z2F bin / 255)%float
            /\ nearest q level = true)
       LevelSpec.bandIndices (update (repeat x64 16)).
Proof.
  apply (levels_refine_specification (repeat xc8 32) (repeat x64 16));
    reflexivity.
Defined.

End LevelAnalysis.

(** ** Lists that serve as object stores *)

Section Stores.

Context {A : Type}.

Lemma lookup_snoc (l : list A) (x : A) : (l ++ [x]) !! length l = Some x.
Proof. induction l as [|y l IH]; [reflexivity|exact IH]. Qed.

Lemma alter_snoc (f : A -> A) (l : list A) (x : A) :
  alter f (length l) (l ++ [x]) = l ++ [f x].
Proof.
  induction l as [|y l IH]; [reflexivity|].
  cbn [length app]. change (alter f (S (length l)) (y :: (l ++ [x])))
    with (y :: alter f (length l) (l ++ [x])).
  now rewrite IH.
Qed.

End Stores.

(** ** Gain *)

Section Gain.

Import App.

Lemma gain_nearest_single (s : Z) :
  0 <= s <= 100 -> nearest_single (inject_Z s / 50)%Q (gainValue s) = true.
Proof.
  intros Hs.
  assert (H : forall_between 0 100 (fun s =>
              nearest_single (inject_Z s / 50)%Q (gainValue s)) = true)
    by (vm_compute; reflexivity).
  exact (forall_between_spec _ _ _ H s Hs).
Qed.

Lemma gain_exact_iff_quarter (s : Z) :
  0 <= s <= 100 ->
  exactly (inject_Z s / 50)%Q (gainValue s) = (s mod 25 =? 0).
Proof.
  intros Hs. apply eqb_prop.
  assert (H : forall_between 0 100 (fun s =>
              eqb (exactly (inject_Z s / 50)%Q (gainValue s)) (s mod 25 =? 0)) = true)
    by (vm_compute; reflexivity).
  exact (forall_between_spec _ _ _ H s Hs).
Qed.

(** When the rest of [startRecording] runs through, the recorder in
    [mediaRecorderRef] sits behind a gain node holding the factor computed
    from the sensitivity that the call captured. *)
Lemma liveGain_after_setup (st : State) (k : nat) (s : Z) :
  awaiting st !! k = Some s ->
  liveGain (step st (UserMediaSettled k SetupSucceeds)) = Some (gainValue s).
Proof.
  intros Hk. unfold step. rewrite Hk.
  unfold resume, begin, makeRecorder, buildGraph, acquire, liveGain. cbn.
  rewrite alter_snoc, lookup_snoc. cbn.
  rewrite lookup_snoc. reflexivity.
Qed.

(** C2, counterexample.  A recording started at sensitivity 33 runs
    behind a gain node whose value is 11072963 / 2^24, a little above
    0.66000002: binary32 cannot hold 33/50, and the factor is not equal to
    it. *)
Lemma gain_at_33_is_not_33_over_50 :
  liveGain (run initial [SetSensitivity 33; StartRecording; UserMediaSettled 0 SetupSucceeds])
    = Some 0x1.51eb86p-1%float
  /\ exactly (11072963 # 16777216)%Q 0x1.51eb86p-1%float = true
  /\ Qeq_bool (11072963 # 16777216) (33 # 50) = false
  /\ exactly (inject_Z 33 / 50)%Q 0x1.51eb86p-1%float = false.
Proof. vm_compute. repeat split; reflexivity. Qed.

(** C2, as amended.  For a sensitivity [s] in [0, 100] the recording
    that starts with it runs behind a gain node whose value is the binary32
    number closest to the rational s/50; that value is s/50 itself exactly
    when 25 divides [s].  50 gives exactly 1, 0 gives exactly 0, 100 gives
    exactly 2. *)
Theorem gain_factor_is_nearest_to_setting_over_50 (s : Z) :
  0 <= s <= 100 ->
  forall st k, awaiting st !! k = Some s ->
    exists factor,
      liveGain (step st (UserMediaSettled k SetupSucceeds)) = Some factor
      /\ nearest_single (inject_Z s / 50)%Q factor = true
      /\ exactly (inject_Z s / 50)%Q factor = (s mod 25 =? 0)
      /\ (s = 50 -> factor = 1%float)
      /\ (s = 0 -> factor = 0%float)
      /\ (s = 100 -> factor = 2%float).
Proof.
  intros Hs st k Hk. exists (gainValue s).
  split; [now apply liveGain_after_setup|].
  split; [now apply gain_nearest_single|].
  split; [now apply gain_exact_iff_quarter|].
  repeat split; intros ->; reflexivity.
Qed.

Lemma gain_factor_is_nearest_to_setting_over_50_witness :
  exists factor,
    liveGain (step (step (step initial (SetSensitivity 33)) StartRecording)
                (UserMediaSettled 0 SetupSucceeds)) = Some factor
    /\ nearest_single (inject_Z 33 / 50)%Q factor = true
    /\ exactly (inject_Z 33 / 50)%Q factor = (33 mod 25 =? 0)
    /\ (33 = 50 -> factor = 1%float)
    /\ (33 = 0 -> factor = 0%float)
    /\ (33 = 100 -> factor = 2%float).
Proof.
  apply (gain_factor_is_nearest_to_setting_over_50 33); [lia|reflexivity].
Defined.

(** The recordings started at the two ends and in the middle of the
    slider. *)
Example gain_at_0_50_100 :
  map (fun s => liveGain (run initial [SetSensitivity s; StartRecording;
                                       UserMediaSettled 0 SetupSucceeds]))
    [0; 50; 100] = [Some 0%float; Some 1%float; Some 2%float].
Proof. vm_compute. reflexivity. Qed.

(** The factors of the slider positions that binary32 holds exactly,
    and of the first one that it does not. *)
Example gain_factors :
  map gainValue [0; 25; 50; 75; 100] = [0%float; 0.5%float; 1%float; 1.5%float; 2%float]
  /\ gainValue 1 = 0x1.47ae14p-6%float.
Proof. vm_compute. split; reflexivity. Qed.

End Gain.

(** ** The speech synthesis client *)

Section Speak.

Import GeminiService.

Lemma carries_inlineAudio (response : GenerateContentResponse) (base64 : string) :
  carries response base64 <-> inlineAudio response = Some base64.
Proof.
  unfold carries, inlineAudio. split.
  - intros (c & cs & ct & p & ps & d & Hc & Hct & Hp & Hd & Hdata).
    rewrite Hc. cbn. rewrite Hct. cbn. rewrite Hp. cbn. rewrite Hd. cbn. exact Hdata.
  - destruct (candidates response) as [[|c cs]|]; cbn; try discriminate.
    destruct (content c) as [ct|] eqn:Hct; cbn; try discriminate.
    destruct (parts ct) as [[|p ps]|] eqn:Hp; cbn; try discriminate.
    destruct (inlineData p) as [d|] eqn:Hd; cbn; try discriminate.
    intros Hdata. exists c, cs, ct, p, ps, d. repeat split; assumption.
Qed.

Lemma atob_throws (base64 : string) (e : exn) :
  atob base64 = Throw e -> e = InvalidCharacterError.
Proof.
  unfold atob.
  destruct (String.length (strip_padding (strip_whitespace base64)) mod 4 =? 1)%nat;
    [congruence|].
  destruct (sextets (strip_padding (strip_whitespace base64))); congruence.
Qed.

Lemma substring_prefix_length (m : nat) (s : string) :
  (m <= String.length s)%nat -> String.length (substring 0 m s) = m.
Proof.
  revert s; induction m as [|m IH]; intros [|c s] Hm; cbn in *; try lia.
  rewrite IH; lia.
Qed.

Lemma strip_padding_empty (s : string) :
  strip_padding s = ""%string -> s = ""%string.
Proof.
  unfold strip_padding.
  destruct (String.length s mod 4 =? 0)%nat eqn:Hmod; [|trivial].
  apply Nat.eqb_eq in Hmod.
  assert (Hcut : forall k, (1 <= k <= 2)%nat -> (k <= String.length s)%nat ->
                 substring 0 (String.length s - k) s <> ""%string).
  { intros k Hk Hlen Hsub. apply (f_equal String.length) in Hsub.
    rewrite substring_prefix_length in Hsub by lia.
    cbn in Hsub.
    assert (String.length s = 1 \/ String.length s = 2)%nat as [H|H] by lia;
      rewrite H in Hmod; discriminate. }
  destruct (2 <=? String.length s)%nat eqn:H2; cbn [andb].
  - apply Nat.leb_le in H2.
    destruct (String.eqb _ "=="%string); [intros H; now apply Hcut in H; try lia|].
    destruct (1 <=? String.length s)%nat; cbn [andb]; [|trivial].
    destruct (String.eqb _ "="%string); [intros H; now apply Hcut in H; try lia|trivial].
  - destruct (1 <=? String.length s)%nat eqn:H1; cbn [andb]; [|trivial].
    apply Nat.leb_le in H1.
    destruct (String.eqb _ "="%string); [intros H; now apply Hcut in H; try lia|trivial].
Qed.

Lemma sextets_length (s : string) (vs : list Z) :
  sextets s = Some vs -> length vs = String.length s.
Proof.
  revert vs; induction s as [|c rest IH]; intros vs; cbn [sextets].
  - now intros [= <-].
  - destruct (sextet c); [|discriminate].
    destruct (sextets rest) as [vs'|]; [|discriminate].
    intros [= <-]. cbn. now rewrite (IH vs').
Qed.

Lemma decode_sextets_empty (vs : list Z) :
  decode_sextets vs = ""%string -> (length vs <= 1)%nat.
Proof.
  destruct vs as [|a [|b [|c [|d rest]]]]; cbn; try lia; discriminate.
Qed.

(** [atob] gives the empty string for white space and for nothing
    else. *)
Lemma atob_empty (base64 : string) :
  atob base64 = Return ""%string <-> strip_whitespace base64 = ""%string.
Proof.
  unfold atob. split.
  - destruct (String.length (strip_padding (strip_whitespace base64)) mod 4 =? 1)%nat
      eqn:Hmod; [discriminate|].
    destruct (sextets (strip_padding (strip_whitespace base64))) as [vs|] eqn:Hvs;
      [|discriminate].
    intros [= Hdec]. apply decode_sextets_empty in Hdec.
    rewrite (sextets_length _ _ Hvs) in Hdec.
    apply Nat.eqb_neq in Hmod.
    apply strip_padding_empty.
    destruct (strip_padding (strip_whitespace base64)) as [|c [|c' rest]];
      [reflexivity|now cbn in Hmod|cbn in Hdec; lia].
  - intros ->. reflexivity.
Qed.

Lemma u8_byte_of_ascii (c : ascii) : u8 (byte_of_ascii c) = Z.of_nat (nat_of_ascii c).
Proof. destruct c as [[] [] [] [] [] [] [] []]; reflexivity. Qed.

Lemma charCodes_codes (binaryString : string) :
  map u8 (charCodes binaryString) =
  map (fun c => Z.of_nat (nat_of_ascii c)) (list_ascii_of_string binaryString).
Proof.
  induction binaryString as [|c rest IH]; cbn; [reflexivity|].
  now rewrite u8_byte_of_ascii, IH.
Qed.

(** [speak] on a response is [decodeBase64] of the inline data when
    there is some, and the error otherwise. *)
Lemma speak_on_response (response : GenerateContentResponse) :
  (forall base64, carries response base64 -> base64 <> ""%string ->
     speak (Return response) = decodeBase64 base64)
  /\ (~ (exists base64, carries response base64 /\ base64 <> ""%string) ->
      speak (Return response) = Throw (Error "No audio returned"%string)).
Proof.
  unfold speak; cbn [bind]. split.
  - intros base64 Hc Hne. apply carries_inlineAudio in Hc. rewrite Hc.
    destruct base64; [congruence|reflexivity].
  - intros Hno. destruct (inlineAudio response) as [[|c rest]|] eqn:Haudio; cbn [falsy];
      try reflexivity.
    exfalso. apply Hno. exists (String c rest).
    split; [now apply carries_inlineAudio|discriminate].
Qed.

Lemma carries_dec (response : GenerateContentResponse) :
  (exists base64, carries response base64 /\ base64 <> ""%string)
  \/ ~ (exists base64, carries response base64 /\ base64 <> ""%string).
Proof.
  destruct (inlineAudio response) as [[|c rest]|] eqn:Haudio.
  - right. intros (b & Hc & Hne). apply carries_inlineAudio in Hc. congruence.
  - left. exists (String c rest). split; [now apply carries_inlineAudio|discriminate].
  - right. intros (b & Hc & Hne). apply carries_inlineAudio in Hc. congruence.
Qed.

Lemma decodeBase64_cases (base64 : string) :
  match atob base64 with
  | Return binaryString =>
      exists buffer,
        decodeBase64 base64 = Return buffer
        /\ map u8 buffer =
             map (fun c => Z.of_nat (nat_of_ascii c)) (list_ascii_of_string binaryString)
  | Throw _ => decodeBase64 base64 = Throw InvalidCharacterError
  end.
Proof.
  unfold decodeBase64. destruct (atob base64) as [binaryString|e] eqn:Hatob; cbn [bind].
  - eexists. split; [reflexivity|apply charCodes_codes].
  - now rewrite (atob_throws _ _ Hatob).
Qed.

(** C10, as amended.  On a response, [speak] throws the error "No audio
    returned" exactly when the first part of the first candidate carries no
    inline data or the empty string.  When it carries a non-empty string,
    [speak] returns a buffer whose bytes are the character codes of the
    binary string that [atob] decodes from it, one byte per character in
    order, or throws the [InvalidCharacterError] of [atob] when the string is
    not base64.  The buffer returned is empty exactly when the inline data
    consists of white space only. *)
Theorem speak_decodes_inline_data_or_throws (response : GenerateContentResponse) :
  (speak (Return response) = Throw (Error "No audio returned"%string)
   <-> ~ (exists base64, carries response base64 /\ base64 <> ""%string))
  /\ (forall base64, carries response base64 -> base64 <> ""%string ->
        match atob base64 with
        | Return binaryString =>
            exists buffer,
              speak (Return response) = Return buffer
              /\ map u8 buffer =
                   map (fun c => Z.of_nat (nat_of_ascii c))
                     (list_ascii_of_string binaryString)
        | Throw _ => speak (Return response) = Throw InvalidCharacterError
        end)
  /\ (speak (Return response) = Return []
      <-> exists base64, carries response base64 /\ base64 <> ""%string
                         /\ strip_whitespace base64 = ""%string).
Proof.
  destruct (speak_on_response response) as [Hdata Hnone].
  assert (Hcases : forall base64, carries response base64 -> base64 <> ""%string ->
            match atob base64 with
            | Return binaryString =>
                exists buffer,
                  speak (Return response) = Return buffer
                  /\ map u8 buffer =
                       map (fun c => Z.of_nat (nat_of_ascii c))
                         (list_ascii_of_string binaryString)
            | Throw _ => speak (Return response) = Throw InvalidCharacterError
            end).
  { intros base64 Hc Hne. rewrite (Hdata base64 Hc Hne). apply decodeBase64_cases. }
  split; [|split; [exact Hcases|]].
  - split; [|exact Hnone].
    intros Hthrow (base64 & Hc & Hne).
    specialize (Hcases base64 Hc Hne).
    destruct (atob base64); [destruct Hcases as (buffer & Hret & _)|]; congruence.
  - split.
    + intros Hret. destruct (carries_dec response) as [(base64 & Hc & Hne)|Hno];
        [|rewrite (Hnone Hno) in Hret; discriminate].
      exists base64. split; [exact Hc|split; [exact Hne|]].
      apply atob_empty.
      specialize (Hcases base64 Hc Hne).
      destruct (atob base64) as [binaryString|e];
        [destruct Hcases as (buffer & Hret' & Hcodes)|congruence].
      rewrite Hret in Hret'. injection Hret' as <-.
      destruct binaryString; [reflexivity|discriminate].
    + intros (base64 & Hc & Hne & Hws).
      rewrite (Hdata base64 Hc Hne). unfold decodeBase64.
      apply atob_empty in Hws. now rewrite Hws.
Qed.

(** C10, counterexample.  Inline data that is present and consists of
    one space is truthy and decodes to the empty buffer, which [speak]
    returns; inline data that is not base64 makes [speak] throw the
    [InvalidCharacterError] of [atob], which is neither a buffer nor the
    error "No audio returned". *)
Lemma speak_returns_nothing_or_decoder_error :
  speak (Return (Fixtures.audioResponse " "%string)) = Return []
  /\ length ([] : ArrayBuffer) = 0%nat
  /\ carries (Fixtures.audioResponse " "%string) " "%string
  /\ speak (Return (Fixtures.audioResponse "AI?A"%string)) = Throw InvalidCharacterError
  /\ carries (Fixtures.audioResponse "AI?A"%string) "AI?A"%string.
Proof.
  repeat split; try reflexivity; unfold carries, Fixtures.audioResponse;
    repeat eexists; reflexivity.
Qed.

End Speak.

Example speak_without_audio :
  let no_candidates := {| GeminiService.candidates := None |} in
  let no_parts :=
    {| GeminiService.candidates :=
         Some [{| GeminiService.content := Some {| GeminiService.parts := Some [] |} |}] |} in
  let text_only :=
    {| GeminiService.candidates :=
         Some [{| GeminiService.content :=
                    Some {| GeminiService.parts :=
                              Some [{| GeminiService.inlineData := None |}] |} |}] |} in
  GeminiService.speak (Return no_candidates) = Throw (Error "No audio returned"%string)
  /\ GeminiService.speak (Return no_parts) = Throw (Error "No audio returned"%string)
  /\ GeminiService.speak (Return text_only) = Throw (Error "No audio returned"%string)
  /\ GeminiService.speak (Throw RemoteFailure) = Throw RemoteFailure.
Proof. cbn. repeat split; reflexivity. Qed.

(** Inline data that is present and holds nothing but white space is
    truthy, and its decoding is the empty buffer. *)
Example speak_whitespace_only :
  GeminiService.speak (Return (Fixtures.audioResponse " "%string)) = Return [].
Proof. reflexivity. Qed.

(** ** Playback decoding *)

Section Decode.

Import Playback.

(** Every 16-bit sample divided by 32768 is held without loss, by a
    number and by an element of a [Float32Array]. *)
Lemma sample_lossless (v : Z) :
  -32768 <= v <= 32767 ->
  fround (normalized v) = normalized v
  /\ exactly (inject_Z v / 32768)%Q (normalized v) = true.
Proof.
  intros Hv.
  assert (H : forall_between (-32768) 32767 (fun v =>
              PrimFloat.Leibniz.eqb (fround (normalized v)) (normalized v)
              && exactly (inject_Z v / 32768)%Q (normalized v)) = true)
    by (vm_compute; reflexivity).
  pose proof (forall_between_spec _ _ _ H v Hv) as Hv'. cbv beta in Hv'.
  apply andb_prop in Hv' as [Heq Hex].
  split; [now apply FloatAxioms.Leibniz.eqb_spec|exact Hex].
Qed.

Lemma int16_le_range (lo hi : byte) : -32768 <= int16_le lo hi <= 32767.
Proof.
  assert (H : forall_between 0 255 (fun a =>
              forall_between 0 255 (fun b =>
                let u := Z.lor a (Z.shiftl b 8) in
                (0 <=? u) && (u <? 65536))) = true)
    by (vm_compute; reflexivity).
  pose proof (forall_between_spec _ _ _ H (u8 lo) (u8_range lo)) as Hlo.
  cbv beta in Hlo.
  pose proof (forall_between_spec _ _ _ Hlo (u8 hi) (u8_range hi)) as Hhi.
  cbv beta zeta in Hhi. apply andb_prop in Hhi as [H0 H1].
  apply Z.leb_le in H0. apply Z.ltb_lt in H1.
  unfold int16_le. cbv zeta.
  destruct (Z.ltb_spec (Z.lor (u8 lo) (Z.shiftl (u8 hi) 8)) 32768); lia.
Qed.

Lemma int16_elements_range (data : Uint8Array) :
  Forall (fun v => -32768 <= v <= 32767) (int16_elements data).
Proof.
  induction data as [data IH] using (induction_ltof1 _ (@length byte)).
  destruct data as [|lo [|hi rest]]; cbn [int16_elements]; try constructor.
  - apply int16_le_range.
  - apply IH. unfold ltof. cbn. lia.
Qed.

Lemma int16_elements_length (data : Uint8Array) :
  length (int16_elements data) = (length data / 2)%nat.
Proof.
  induction data as [data IH] using (induction_ltof1 _ (@length byte)).
  destruct data as [|lo [|hi rest]]; try reflexivity.
  cbn [int16_elements length]. rewrite IH by (unfold ltof; cbn; lia).
  change (S (S (length rest))) with (1 * 2 + length rest)%nat.
  now rewrite Nat.div_add_l by lia.
Qed.

(** The loop writes the elements from [i] on and leaves the earlier
    ones alone. *)
Lemma fillChannel_spec (dataInt16 : list Z) (done rest : list number) :
  length rest = length dataInt16 ->
  Forall (fun v => -32768 <= v <= 32767) dataInt16 ->
  fillChannel dataInt16 (length done) (done ++ rest) = done ++ map normalized dataInt16.
Proof.
  revert done rest; induction dataInt16 as [|v vs IH]; intros done rest Hlen Hrange.
  - destruct rest; [reflexivity|discriminate].
  - destruct rest as [|x rest]; [discriminate|].
    inversion Hrange as [|? ? Hv Hvs]; subst.
    cbn [fillChannel map].
    rewrite (insert_app_r_alt done (x :: rest) (length done)) by lia.
    rewrite Nat.sub_diag. cbn [insert list_insert].
    destruct (sample_lossless v Hv) as [-> _].
    change (done ++ normalized v :: rest) with (done ++ [normalized v] ++ rest).
    rewrite app_assoc.
    replace (S (length done)) with (length (done ++ [normalized v]))
      by (rewrite length_app; cbn; lia).
    rewrite IH by (cbn in Hlen; first [lia | assumption]).
    now rewrite <- app_assoc.
Qed.

Lemma decodeRawPCM_even (data : Uint8Array) :
  data <> [] -> (length data mod 2 = 0)%nat ->
  decodeRawPCM data =
  Return {| numberOfChannels := 1; sampleRate := 24000;
            channelData := map normalized (int16_elements data) |}.
Proof.
  intros Hne Heven. unfold decodeRawPCM, new_Int16Array.
  assert (Hz : Z.of_nat (length data) mod 2 = 0).
  { change 2 with (Z.of_nat 2). rewrite <- Nat2Z.inj_mod, Heven. reflexivity. }
  rewrite Hz. cbn [Z.eqb bind]. unfold createBuffer.
  assert (Hpos : (length (int16_elements data) =? 0)%nat = false).
  { apply Nat.eqb_neq. rewrite int16_elements_length.
    destruct data as [|lo [|hi rest]]; [congruence|discriminate|].
    cbn [length]. change (S (S (length rest))) with (1 * 2 + length rest)%nat.
    rewrite Nat.div_add_l by lia. lia. }
  rewrite Hpos. change (1 <? 1) with false.
  cbn [orb bind numberOfChannels sampleRate channelData].
  f_equal. f_equal.
  apply (fillChannel_spec (int16_elements data) []).
  - apply repeat_length.
  - apply int16_elements_range.
Qed.

Lemma decodeRawPCM_odd (data : Uint8Array) :
  (length data mod 2 = 1)%nat -> decodeRawPCM data = Throw RangeError.
Proof.
  intros Hodd. unfold decodeRawPCM, new_Int16Array.
  assert (Hz : Z.of_nat (length data) mod 2 = 1).
  { change 2 with (Z.of_nat 2). rewrite <- Nat2Z.inj_mod, Hodd. reflexivity. }
  rewrite Hz. reflexivity.
Qed.

End Decode.

Section PlaybackCallSite.

Import Playback.

(** No frame at all is no buffer either: [createBuffer] refuses a
    length of zero. *)
Example decodeRawPCM_empty : decodeRawPCM [] = Throw NotSupportedError.
Proof. reflexivity. Qed.

(** C3.  Decoding is a function of the bytes.  For a buffer of even
    length, each little-endian 16-bit sample [v] of the input is decoded:
    the result is a buffer of one channel at 24000 Hz that holds, at the
    position of [v], the number [v / 32768]; that number stands for the
    rational v/32768 exactly, also after the rounding of the
    [Float32Array], so nothing is lost.  The bytes 00 80 00 00 are the
    samples -32768 and 0 and decode to -1 and 0. *)
Theorem decodeRawPCM_is_sample_over_32768 (data : Uint8Array) :
  (length data mod 2 = 0)%nat ->
  (forall i v, int16_elements data !! i = Some v ->
     exists buffer,
       decodeRawPCM data = Return buffer
       /\ numberOfChannels buffer = 1
       /\ sampleRate buffer = 24000
       /\ length (channelData buffer) = (length data / 2)%nat
       /\ channelData buffer !! i = Some (Z2F v / 32768)%float
       /\ fround (Z2F v / 32768)%float = (Z2F v / 32768)%float
       /\ exactly (inject_Z v / 32768)%Q (Z2F v / 32768)%float = true)
  /\ int16_elements [x00; x80; x00; x00] = [-32768; 0]
  /\ decodeRawPCM [x00; x80; x00; x00] =
       Return {| numberOfChannels := 1; sampleRate := 24000;
                 channelData := [(-1)%float; 0%float] |}.
Proof.
  intros Heven. split; [|split; reflexivity].
  intros i v Hv.
  assert (Hne : data <> []) by (intros ->; discriminate).
  pose proof (Forall_lookup_1 _ _ _ _ (int16_elements_range data) Hv) as Hrange.
  cbv beta in Hrange.
  destruct (sample_lossless v Hrange) as [Hround Hexact].
  eexists. split; [now apply decodeRawPCM_even|].
  cbn [numberOfChannels sampleRate channelData].
  rewrite length_map, int16_elements_length, list_lookup_fmap, Hv.
  repeat split; assumption.
Qed.

Lemma decodeRawPCM_is_sample_over_32768_witness :
  (forall i v, int16_elements [xff; x7f; x01; x00] !! i = Some v ->
     exists buffer,
       decodeRawPCM [xff; x7f; x01; x00] = Return buffer
       /\ numberOfChannels buffer = 1
       /\ sampleRate buffer = 24000
       /\ length (channelData buffer) = (length [xff; x7f; x01; x00] / 2)%nat
       /\ channelData buffer !! i = Some (Z2F v / 32768)%float
       /\ fround (Z2F v / 32768)%float = (Z2F v / 32768)%float
       /\ exactly (inject_Z v / 32768)%Q (Z2F v / 32768)%float = true)
  /\ int16_elements [x00; x80; x00; x00] = [-32768; 0]
  /\ decodeRawPCM [x00; x80; x00; x00] =
       Return {| numberOfChannels := 1; sampleRate := 24000;
                 channelData := [(-1)%float; 0%float] |}.
Proof.
  apply (decodeRawPCM_is_sample_over_32768 [xff; x7f; x01; x00]).
  reflexivity.
Defined.

(** C4.  A buffer of odd length is refused: [new Int16Array] throws a
    [RangeError] and no sample is produced.  When such a buffer is what
    [speak] returned, [handleSpeak] catches the exception: it completes
    normally, has started no source, and has logged the error. *)
Theorem odd_length_is_rejected_and_skipped
    (data : Uint8Array) (remote : completion GeminiService.GenerateContentResponse)
    (p : Player) :
  (length data mod 2 = 1)%nat ->
  GeminiService.speak remote = Return data ->
  decodeRawPCM data = Throw RangeError
  /\ snd (handleSpeak remote p) = Return tt
  /\ started (fst (handleSpeak remote p)) = started p
  /\ console (fst (handleSpeak remote p)) =
       console p ++ [("Speech playback error:"%string, RangeError)].
Proof.
  intros Hodd Hspeak.
  pose proof (decodeRawPCM_odd data Hodd) as Hdecode.
  split; [exact Hdecode|].
  unfold handleSpeak, speakAndPlay.
  rewrite Hspeak. cbn [bind]. rewrite Hdecode. cbn.
  repeat split; reflexivity.
Qed.

Lemma odd_length_is_rejected_and_skipped_witness :
  decodeRawPCM [x00; x80; x00] = Throw RangeError
  /\ snd (handleSpeak (Return Fixtures.three_byte_response) initialPlayer) = Return tt
  /\ started (fst (handleSpeak (Return Fixtures.three_byte_response) initialPlayer)) =
       started initialPlayer
  /\ console (fst (handleSpeak (Return Fixtures.three_byte_response) initialPlayer)) =
       console initialPlayer ++ [("Speech playback error:"%string, RangeError)].
Proof.
  apply (odd_length_is_rejected_and_skipped [x00; x80; x00]
           (Return Fixtures.three_byte_response) initialPlayer); reflexivity.
Defined.

(** The call site end to end on the four bytes of the example, and on a
    response without audio. *)
Example handleSpeak_examples :
  started (fst (handleSpeak (Return Fixtures.four_byte_response) initialPlayer)) =
    [{| numberOfChannels := 1; sampleRate := 24000;
        channelData := [(-1)%float; 0%float] |}]
  /\ console (fst (handleSpeak (Return Fixtures.four_byte_response) initialPlayer)) = []
  /\ handleSpeak (Return {| GeminiService.candidates := None |}) initialPlayer =
       ({| audioContextRef := Some 24000; started := [];
           console := [("Speech playback error:"%string, Error "No audio returned"%string)] |},
        Return tt).
Proof. vm_compute. repeat split; reflexivity. Qed.

End PlaybackCallSite.

(** ** Recording *)

Section Recorder.

Import App.

Lemma delete_snoc {A : Type} (l : list A) (x : A) : delete (length l) (l ++ [x]) = l.
Proof. induction l as [|y l IH]; [reflexivity|]. cbn. f_equal. exact IH. Qed.

Lemma run_app (s : State) (t1 t2 : list event) :
  run s (t1 ++ t2) = run (run s t1) t2.
Proof. apply fold_left_app. Qed.

(** Pressing the button and the stream arriving, seen as one step. *)
Lemma start_then_settle (s : State) (outcome : setup) :
  run s [StartRecording; UserMediaSettled (length (awaiting s)) outcome] =
  resume (sensitivity s) outcome (set_audioChunksRef [] (set_error None s)).
Proof.
  cbn [run fold_left step]. unfold startRecording at 1.
  cbn [awaiting set_awaiting set_audioChunksRef set_error].
  rewrite lookup_snoc.
  unfold startRecording. cbn [awaiting set_awaiting set_audioChunksRef set_error].
  rewrite delete_snoc. reflexivity.
Qed.

(** While recorder [r] delivers, its non-empty chunks are appended in
    the order of arrival and nothing else changes. *)
Lemma run_dataavailable (r : nat) (rc : MediaRecorder) (chunks : list Blob) (s : State) :
  recorders s !! r = Some rc -> delivers rc = true ->
  Forall (fun c => (0 < size c)%nat) chunks ->
  run s (map (DataAvailable r) chunks) =
  set_audioChunksRef (audioChunksRef s ++ chunks) s.
Proof.
  intros Hr Hdel Hne. revert s Hr.
  induction Hne as [|c chunks Hc _ IH]; intros s Hr.
  - cbn. rewrite app_nil_r. now destruct s.
  - cbn [map run fold_left step]. rewrite Hr, Hdel.
    unfold ondataavailable.
    apply Nat.ltb_lt in Hc. rewrite Hc.
    fold (run (set_audioChunksRef (audioChunksRef s ++ [c]) s) (map (DataAvailable r) chunks)).
    rewrite IH by exact Hr.
    cbn [audioChunksRef set_audioChunksRef]. rewrite <- app_assoc. reflexivity.
Qed.

(** Simplification of reads and writes at the end of an object store. *)
Ltac store_simpl :=
  repeat progress (cbn; rewrite ?alter_snoc, ?lookup_snoc, ?delete_snoc).

(** Releasing the button and the recorder firing [stop], for the
    recorder that a successful setup has just installed and that has
    filled the buffer with [chunks]. *)
Lemma stop_then_stopped (s : State) (chunks : list Blob) :
  let s1 := resume (sensitivity s) SetupSucceeds (set_audioChunksRef [] (set_error None s)) in
  let s3 := run (set_audioChunksRef chunks s1) [StopRecording; Stopped (length (recorders s))] in
  handedOff s3 = handedOff s ++ [new_Blob chunks "audio/webm"%string]
  /\ audioChunksRef s3 = chunks.
Proof.
  destruct s. cbv zeta. unfold resume, begin, makeRecorder, buildGraph, acquire.
  store_simpl. split; reflexivity.
Qed.

Lemma resume_installs_recorder (s : State) (sens : Z) :
  let s1 := resume sens SetupSucceeds s in
  recorders s1 !! length (recorders s) =
    Some {| rec_state := recording; stopQueued := false;
            rec_context := length (contexts s) |}
  /\ audioChunksRef s1 = audioChunksRef s.
Proof.
  destruct s. cbv zeta. unfold resume, begin, makeRecorder, buildGraph, acquire.
  store_simpl. split; reflexivity.
Qed.

(** C1, as amended.  From any state, a recording whose recorder delivers
    the non-empty chunks [chunks] (three of them, or any number) hands off
    exactly one more blob: the bytes of the chunks concatenated in order of
    arrival, typed audio/webm.  The chunk buffer is not emptied by the
    handoff: it still holds the chunks, and it is the next [startRecording]
    that empties it. *)
Theorem recorder_round_trip (s : State) (chunks : list Blob) :
  Forall (fun c => (0 < size c)%nat) chunks ->
  handedOff (run s (recordingSession s chunks)) =
    handedOff s ++ [new_Blob chunks "audio/webm"%string]
  /\ blob_bytes (new_Blob chunks "audio/webm"%string) = concat (map blob_bytes chunks)
  /\ blob_type (new_Blob chunks "audio/webm"%string) = "audio/webm"%string
  /\ audioChunksRef (run s (recordingSession s chunks)) = chunks
  /\ audioChunksRef (step (run s (recordingSession s chunks)) StartRecording) = [].
Proof.
  intros Hne.
  assert (Hrun : run s (recordingSession s chunks) =
    run (set_audioChunksRef chunks
           (resume (sensitivity s) SetupSucceeds (set_audioChunksRef [] (set_error None s))))
        [StopRecording; Stopped (length (recorders s))]).
  { unfold recordingSession. rewrite !run_app, start_then_settle.
    f_equal.
    destruct (resume_installs_recorder (set_audioChunksRef [] (set_error None s))
                (sensitivity s)) as [Hrec Hchunks].
    cbv zeta in Hrec, Hchunks.
    cbn [recorders contexts audioChunksRef set_audioChunksRef set_error] in Hrec, Hchunks.
    rewrite (run_dataavailable _ _ chunks _ Hrec eq_refl Hne).
    rewrite Hchunks. reflexivity. }
  rewrite Hrun.
  destruct (stop_then_stopped s chunks) as [Hoff Hbuf]. cbv zeta in Hoff, Hbuf.
  repeat split; try assumption.
Qed.

Lemma recorder_round_trip_witness :
  handedOff (run initial (recordingSession initial [Fixtures.c1; Fixtures.c2; Fixtures.c3])) =
    handedOff initial ++ [new_Blob [Fixtures.c1; Fixtures.c2; Fixtures.c3] "audio/webm"%string]
  /\ blob_bytes (new_Blob [Fixtures.c1; Fixtures.c2; Fixtures.c3] "audio/webm"%string) =
       concat (map blob_bytes [Fixtures.c1; Fixtures.c2; Fixtures.c3])
  /\ blob_type (new_Blob [Fixtures.c1; Fixtures.c2; Fixtures.c3] "audio/webm"%string) =
       "audio/webm"%string
  /\ audioChunksRef (run initial (recordingSession initial [Fixtures.c1; Fixtures.c2; Fixtures.c3])) =
       [Fixtures.c1; Fixtures.c2; Fixtures.c3]
  /\ audioChunksRef
       (step (run initial (recordingSession initial [Fixtures.c1; Fixtures.c2; Fixtures.c3]))
          StartRecording) = [].
Proof.
  apply (recorder_round_trip initial [Fixtures.c1; Fixtures.c2; Fixtures.c3]).
  repeat constructor.
Defined.

(** C1, counterexample.  After the handoff of the three chunks of the
    example the buffer holds all three of them: it is not empty. *)
Lemma buffer_is_kept_after_handoff :
  handedOff (run initial (recordingSession initial [Fixtures.c1; Fixtures.c2; Fixtures.c3])) =
    [{| blob_bytes := [x1a; x45; xdf; xa3; x42; x86]; blob_type := "audio/webm"%string |}]
  /\ audioChunksRef (run initial (recordingSession initial [Fixtures.c1; Fixtures.c2; Fixtures.c3])) =
       [Fixtures.c1; Fixtures.c2; Fixtures.c3]
  /\ (length (audioChunksRef
                (run initial (recordingSession initial [Fixtures.c1; Fixtures.c2; Fixtures.c3])))
       =? 0)%nat = false.
Proof. vm_compute. repeat split; reflexivity. Qed.

(** Chunks of size zero are not kept. *)
Example empty_chunks_are_dropped :
  audioChunksRef
    (run initial
       [StartRecording; UserMediaSettled 0 SetupSucceeds;
        DataAvailable 0 {| blob_bytes := []; blob_type := "audio/webm"%string |};
        DataAvailable 0 Fixtures.c2]) = [Fixtures.c2].
Proof. reflexivity. Qed.

(** Without a time slice the recorder delivers its data after [stop()]
    has been called; the chunk is still part of the blob. *)
Example chunk_delivered_after_stop :
  handedOff
    (run initial
       [StartRecording; UserMediaSettled 0 SetupSucceeds; StopRecording;
        DataAvailable 0 Fixtures.c1; Stopped 0]) =
  [{| blob_bytes := [x1a; x45]; blob_type := "audio/webm"%string |}].
Proof. reflexivity. Qed.

(** [stopRecording] on an idle component hands nothing off. *)
Example stop_while_idle :
  handedOff (run initial [StopRecording; Stopped 0]) = []
  /\ recorders (run initial [StopRecording; Stopped 0]) = [].
Proof. split; reflexivity. Qed.

(** *** Sensitivity changes during a recording *)

Lemma liveGain_set_sensitivity (s : State) (val : Z) :
  liveGain (step s (SetSensitivity val)) = liveGain s.
Proof. reflexivity. Qed.

Lemma run_set_sensitivity (vals : list Z) (s : State) :
  contexts (run s (map SetSensitivity vals)) = contexts s
  /\ recorders (run s (map SetSensitivity vals)) = recorders s
  /\ mediaRecorderRef (run s (map SetSensitivity vals)) = mediaRecorderRef s
  /\ awaiting (run s (map SetSensitivity vals)) = awaiting s.
Proof.
  revert s; induction vals as [|val vals IH]; intros s; [repeat split; reflexivity|].
  cbn [map run fold_left].
  fold (run (step s (SetSensitivity val)) (map SetSensitivity vals)).
  destruct (IH (step s (SetSensitivity val))) as (Hc & Hr & Hm & Ha).
  rewrite Hc, Hr, Hm, Ha. repeat split.
Qed.

(** C7, counterexample.  A recording starts at sensitivity 50, so with
    gain 1.  Moving the slider to 100 changes [sensitivity], and the gain of
    the running recording is still 1, not the factor 2 that 100 stands
    for. *)
Lemma gain_change_is_not_live :
  liveGain (run initial [StartRecording; UserMediaSettled 0 SetupSucceeds]) = Some 1%float
  /\ sensitivity
       (run initial [StartRecording; UserMediaSettled 0 SetupSucceeds; SetSensitivity 100]) = 100
  /\ liveGain
       (run initial [StartRecording; UserMediaSettled 0 SetupSucceeds; SetSensitivity 100]) =
     Some 1%float
  /\ gainValue 100 = 2%float.
Proof. vm_compute. repeat split; reflexivity. Qed.

(** C7, as amended.  The gain of a recording is fixed when its audio
    graph is built: any sequence of sensitivity changes leaves the gain of
    the running recording, and every audio graph, as it was.  The last
    value set is the one that the next recording starts with. *)
Theorem gain_is_fixed_when_recording_starts (s : State) (vals : list Z) (val : Z) :
  liveGain (run s (map SetSensitivity (vals ++ [val]))) = liveGain s
  /\ contexts (run s (map SetSensitivity (vals ++ [val]))) = contexts s
  /\ sensitivity (run s (map SetSensitivity (vals ++ [val]))) = val
  /\ liveGain
       (run (run s (map SetSensitivity (vals ++ [val])))
          [StartRecording; UserMediaSettled (length (awaiting s)) SetupSucceeds]) =
     Some (gainValue val).
Proof.
  destruct (run_set_sensitivity (vals ++ [val]) s) as (Hc & Hr & Hm & Ha).
  assert (Hs : sensitivity (run s (map SetSensitivity (vals ++ [val]))) = val)
    by (rewrite map_app, run_app; reflexivity).
  split; [|split; [exact Hc|split; [exact Hs|]]].
  - unfold liveGain. now rewrite Hc, Hr, Hm.
  - rewrite <- Ha at 1.
    change (run ?s0 [StartRecording; UserMediaSettled ?k ?o])
      with (step (step s0 StartRecording) (UserMediaSettled k o)).
    apply liveGain_after_setup.
    cbn [step startRecording awaiting set_awaiting set_audioChunksRef set_error].
    rewrite lookup_snoc. now rewrite Hs.
Qed.

(** *** Starting while a recording is active *)

(** C8, counterexample.  [startRecording] while a recording runs is
    not refused (no error, a new recorder is installed) and does not stop
    the running recorder: two recorders are active, and a chunk from each
    lands in the one buffer. *)
Lemma second_start_adds_a_second_active_recorder :
  map rec_state (recorders (run initial Fixtures.doubleStart)) = [recording; recording]
  /\ activeRecorders (run initial Fixtures.doubleStart) = 2%nat
  /\ audioChunksRef (run initial Fixtures.doubleStart) = [Fixtures.c1; Fixtures.c2]
  /\ error (run initial Fixtures.doubleStart) = None.
Proof. vm_compute. repeat split; reflexivity. Qed.

Lemma filter_alter_same {A : Type} (p : A -> bool) (f : A -> A) (i : nat) (l : list A) :
  (forall x, p (f x) = p x) ->
  length (List.filter p (alter f i l)) = length (List.filter p l).
Proof.
  intros Hf. revert i; induction l as [|x l IH]; intros [|i]; cbn; try reflexivity.
  - rewrite Hf. now destruct (p x).
  - destruct (p x); cbn; now rewrite IH.
Qed.

Lemma filter_alter_le {A : Type} (p : A -> bool) (f : A -> A) (i : nat) (l : list A) :
  (forall x, p (f x) = false) ->
  (length (List.filter p (alter f i l)) <= length (List.filter p l))%nat.
Proof.
  intros Hf. revert i; induction l as [|x l IH]; intros [|i]; cbn; try lia.
  - rewrite Hf. destruct (p x); cbn; lia.
  - specialize (IH i). destruct (p x); cbn; lia.
Qed.

Lemma filter_alter_mono {A : Type} (p : A -> bool) (f : A -> A) (i : nat) (l : list A) :
  (forall x, l !! i = Some x -> p (f x) = true -> p x = true) ->
  (length (List.filter p (alter f i l)) <= length (List.filter p l))%nat.
Proof.
  revert i; induction l as [|x l IH]; intros [|i] Hf; cbn; try lia.
  - specialize (Hf x eq_refl). destruct (p (f x)), (p x); cbn; lia.
  - specialize (IH i Hf). destruct (p x); cbn; lia.
Qed.

Lemma atRest_spec (s : State) :
  atRest s = true -> appendingRecorders s = 0%nat /\ awaiting s = [].
Proof.
  unfold atRest, appendingRecorders. intros H. apply andb_prop in H as [Hrec Hwait].
  split.
  - induction (recorders s) as [|rc l IH]; [reflexivity|].
    cbn in Hrec |- *. apply andb_prop in Hrec as [Hrc Hl].
    apply negb_true_iff in Hrc. rewrite Hrc. now apply IH.
  - apply Nat.eqb_eq in Hwait. now destruct (awaiting s).
Qed.

Lemma appendingRecorders_resume (sens : Z) (outcome : setup) (s : State) :
  (appendingRecorders (resume sens outcome s) <= S (appendingRecorders s))%nat
  /\ awaiting (resume sens outcome s) = awaiting s.
Proof.
  destruct s, outcome; unfold appendingRecorders, resume, begin, makeRecorder, buildGraph, acquire;
    cbn; rewrite ?alter_snoc, ?List.filter_app, ?length_app; cbn; split; lia || reflexivity.
Qed.

(** A recorder that is recording can append. *)
Lemma active_le_appending (s : State) :
  (activeRecorders s <= appendingRecorders s)%nat.
Proof.
  unfold activeRecorders, appendingRecorders.
  induction (recorders s) as [|rc l IH]; [reflexivity|].
  cbn. unfold isRecorderActive at 1, delivers at 1.
  destruct (rec_state rc); [destruct (stopQueued rc)|]; cbn; lia.
Qed.

Lemma step_keeps_single_appender (s : State) (e : event) :
  (appendingRecorders s + length (awaiting s) <= 1)%nat ->
  (e = StartRecording -> atRest s = true) ->
  (appendingRecorders (step s e) + length (awaiting (step s e)) <= 1)%nat.
Proof.
  intros Hinv Hrest. destruct e as [val| |k outcome|r data|r|].
  - exact Hinv.
  - destruct (atRest_spec s (Hrest eq_refl)) as [Hact Hwait].
    unfold appendingRecorders in *. cbn. rewrite Hwait, Hact. cbn. lia.
  - cbn [step]. destruct (awaiting s !! k) as [sens|] eqn:Hk; [|exact Hinv].
    pose proof (lookup_lt_Some _ _ _ Hk) as Hlt.
    destruct (appendingRecorders_resume sens outcome
                (set_awaiting (delete k (awaiting s)) s)) as [Hact Hwait].
    rewrite Hwait. cbn [awaiting set_awaiting].
    rewrite length_delete by eauto.
    unfold appendingRecorders in *. cbn [recorders set_awaiting] in Hact. lia.
  - cbn [step]. destruct (recorders s !! r) as [rc|]; [|exact Hinv].
    destruct (delivers rc); [|exact Hinv].
    unfold ondataavailable. destruct (0 <? size data)%nat; exact Hinv.
  - cbn [step]. destruct (recorders s !! r) as [rc|] eqn:Hr; [|exact Hinv].
    destruct (stopQueued rc) eqn:Hq; [|exact Hinv].
    unfold appendingRecorders in *. cbn.
    assert (Hle : (length (List.filter delivers (alter settled r (recorders s)))
                   <= length (List.filter delivers (recorders s)))%nat).
    { apply filter_alter_mono. intros x Hx _.
      rewrite Hr in Hx. injection Hx as <-.
      unfold delivers. rewrite Hq. now destruct (rec_state rc). }
    lia.
  - unfold appendingRecorders in *. cbn [step]. unfold stopRecording.
    destruct (mediaRecorderRef s) as [r|];
      [destruct (recorders s !! r) as [rc|] eqn:Hr; [destruct (rec_state rc) eqn:Hst|]|];
      match goal with
      | |- context [streamRef ?s1] => destruct (streamRef s1)
      end; cbn; try exact Hinv;
      assert (Hle : (length (List.filter delivers (alter stopped r (recorders s)))
                     <= length (List.filter delivers (recorders s)))%nat)
        by (apply filter_alter_mono; intros x Hx _;
            rewrite Hr in Hx; injection Hx as <-;
            unfold delivers; now rewrite Hst);
      lia.
Qed.

Lemma one_in_filter {A : Type} (p : A -> bool) (l : list A) (i : nat) (x : A) :
  l !! i = Some x -> p x = true -> (1 <= length (List.filter p l))%nat.
Proof.
  revert i; induction l as [|y l IH]; intros [|i] Hi Hp; try discriminate; cbn.
  - injection Hi as ->. rewrite Hp. cbn. lia.
  - specialize (IH i Hi Hp). destruct (p y); cbn; lia.
Qed.

Lemma two_in_filter {A : Type} (p : A -> bool) (l : list A) (i j : nat) (x y : A) :
  l !! i = Some x -> l !! j = Some y -> i <> j -> p x = true -> p y = true ->
  (2 <= length (List.filter p l))%nat.
Proof.
  revert i j; induction l as [|z l IH]; intros [|i] [|j] Hi Hj Hne Hx Hy;
    try discriminate; try congruence; cbn.
  - injection Hi as ->. rewrite Hx. cbn.
    pose proof (one_in_filter p l j y Hj Hy). lia.
  - injection Hj as ->. rewrite Hy. cbn.
    pose proof (one_in_filter p l i x Hi Hx). lia.
  - assert (Hne' : i <> j) by congruence.
    specialize (IH i j Hi Hj Hne' Hx Hy). destruct (p z); cbn; lia.
Qed.

(** Only a recorder that delivers changes the buffer. *)
Lemma append_needs_delivery (s : State) (r : nat) (data : Blob) :
  audioChunksRef (step s (DataAvailable r data)) <> audioChunksRef s ->
  exists rc, recorders s !! r = Some rc /\ delivers rc = true.
Proof.
  cbn [step]. destruct (recorders s !! r) as [rc|]; [|intros H; congruence].
  destruct (delivers rc) eqn:Hd; [|intros H; congruence].
  intros _. now exists rc.
Qed.

Lemma appenders_coincide (s : State) (r1 r2 : nat) (d1 d2 : Blob) :
  (appendingRecorders s <= 1)%nat ->
  audioChunksRef (step s (DataAvailable r1 d1)) <> audioChunksRef s ->
  audioChunksRef (step s (DataAvailable r2 d2)) <> audioChunksRef s ->
  r1 = r2.
Proof.
  intros Hone H1 H2.
  destruct (append_needs_delivery s r1 d1 H1) as (rc1 & Hr1 & Hd1).
  destruct (append_needs_delivery s r2 d2 H2) as (rc2 & Hr2 & Hd2).
  destruct (Nat.eq_dec r1 r2) as [Heq|Hne]; [exact Heq|].
  pose proof (two_in_filter delivers (recorders s) r1 r2 rc1 rc2 Hr1 Hr2 Hne Hd1 Hd2).
  unfold appendingRecorders in Hone. lia.
Qed.

(** C8, as amended.  [startRecording] itself has no guard.  In every
    state of a run in which it is called only while the component is at
    rest (no recorder is recording or has yet to deliver its last chunk, no
    call is suspended), at most one recorder can append to the chunk buffer:
    the one that is recording, or the one that was stopped and has yet to
    deliver its last chunk; and none can while a call is suspended.  Two
    [dataavailable] events that would each change the buffer in such a
    state come from the same recorder.  In particular at most one recorder
    is recording. *)
Theorem one_appender_when_started_at_rest (s : State) :
  startsAtRest s ->
  (appendingRecorders s + length (awaiting s) <= 1)%nat
  /\ (forall r1 r2 d1 d2,
        audioChunksRef (step s (DataAvailable r1 d1)) <> audioChunksRef s ->
        audioChunksRef (step s (DataAvailable r2 d2)) <> audioChunksRef s ->
        r1 = r2)
  /\ (activeRecorders s <= 1)%nat.
Proof.
  intros Hrun.
  assert (Hone : (appendingRecorders s + length (awaiting s) <= 1)%nat).
  { induction Hrun as [|s e _ IH Hrest].
    - cbn. lia.
    - now apply step_keeps_single_appender. }
  split; [exact Hone|split].
  - intros r1 r2 d1 d2. apply appenders_coincide. lia.
  - pose proof (active_le_appending s). lia.
Qed.

Lemma one_appender_when_started_at_rest_witness :
  (appendingRecorders (run initial Fixtures.twoRecordings)
   + length (awaiting (run initial Fixtures.twoRecordings)) <= 1)%nat
  /\ (forall r1 r2 d1 d2,
        audioChunksRef (step (run initial Fixtures.twoRecordings) (DataAvailable r1 d1))
          <> audioChunksRef (run initial Fixtures.twoRecordings) ->
        audioChunksRef (step (run initial Fixtures.twoRecordings) (DataAvailable r2 d2))
          <> audioChunksRef (run initial Fixtures.twoRecordings) ->
        r1 = r2)
  /\ (activeRecorders (run initial Fixtures.twoRecordings) <= 1)%nat.
Proof.
  apply (one_appender_when_started_at_rest (run initial Fixtures.twoRecordings)).
  unfold Fixtures.twoRecordings. cbn [run fold_left].
  repeat (apply startsAtRest_step; [|first [discriminate | intros _; reflexivity]]).
  apply startsAtRest_initial.
Defined.

(** That no recorder is recording is not enough.  After the button is
    released the component is idle, while the stopped recorder has yet to
    deliver its last chunk: it is not at rest.  A recording started then
    runs beside that recorder, two recorders can append, and the blob of
    the second recording begins with the chunk of the first. *)
Example restart_before_the_stop_event :
  idle (run initial (take 3 Fixtures.restartBeforeStopEvent)) = true
  /\ atRest (run initial (take 3 Fixtures.restartBeforeStopEvent)) = false
  /\ activeRecorders (run initial (take 5 Fixtures.restartBeforeStopEvent)) = 1%nat
  /\ appendingRecorders (run initial (take 5 Fixtures.restartBeforeStopEvent)) = 2%nat
  /\ map blob_bytes (handedOff (run initial Fixtures.restartBeforeStopEvent)) =
       [blob_bytes Fixtures.c1; blob_bytes Fixtures.c1 ++ blob_bytes Fixtures.c2].
Proof. vm_compute. repeat split; reflexivity. Qed.

(** *** Release of the stream and of the audio graph *)

Lemma graph0_orphaned_step (s : State) (e : event) :
  graph0_orphaned s -> graph0_orphaned (step s e).
Proof.
  intros [(g & Hg & Hopen) Hrec].
  assert (Hlen : (0 < length (contexts s))%nat) by (eapply lookup_lt_Some; eauto).
  assert (Hkeep : forall f i, (forall rc, rec_context (f rc) = rec_context rc) ->
            Forall (fun rc => rec_context rc <> 0%nat) (alter f i (recorders s))).
  { intros f i Hf. apply Forall_alter; [exact Hrec|]. intros rc _ Hrc. now rewrite Hf. }
  destruct e as [val| |k outcome|r data|r|]; cbn [step].
  - split; [exists g; split|]; assumption.
  - split; [exists g; split|]; assumption.
  - destruct (awaiting s !! k) as [sens|]; [|split; [exists g; split|]; assumption].
    destruct s, outcome;
      unfold graph0_orphaned, resume, begin, makeRecorder, buildGraph, acquire, failed;
      cbn in *; rewrite ?alter_snoc; cbn;
      (split; [exists g; split; [|assumption];
               first [assumption | now apply lookup_app_l_Some]|]);
      rewrite ?Forall_app; repeat split; try assumption;
      repeat constructor; cbn; lia.
  - destruct (recorders s !! r) as [rc|]; [|split; [exists g; split|]; assumption].
    destruct (delivers rc); [|split; [exists g; split|]; assumption].
    unfold ondataavailable. destruct (0 <? size data)%nat; split; try assumption;
      exists g; split; assumption.
  - destruct (recorders s !! r) as [rc|] eqn:Hr; [|split; [exists g; split|]; assumption].
    destruct (stopQueued rc); [|split; [exists g; split|]; assumption].
    pose proof (Forall_lookup_1 _ _ _ _ Hrec Hr) as Hctx. cbn in Hctx.
    split.
    + exists g. cbn. rewrite list_lookup_alter_ne by exact Hctx. now split.
    + cbn. apply Hkeep. now intros [].
  - unfold stopRecording.
    destruct (mediaRecorderRef s) as [r|];
      [destruct (recorders s !! r) as [rc|]; [destruct (rec_state rc)|]|];
      match goal with
      | |- context [streamRef ?s1] => destruct (streamRef s1)
      end; cbn; (split; [exists g; split; assumption|]);
      first [assumption | apply Hkeep; now intros []].
Qed.

Lemma graph0_orphaned_run (trace : list event) (s : State) :
  graph0_orphaned s -> graph0_orphaned (run s trace).
Proof.
  revert s; induction trace as [|e trace IH]; intros s H; [exact H|].
  apply (IH (step s e)). now apply graph0_orphaned_step.
Qed.

(** C9, at the failing input.  The stream has arrived, the audio graph
    is built, and [new MediaRecorder] throws: the [catch] block sets the
    error message and releases nothing.  The tracks of the stream have not
    been stopped, the audio graph has not been closed, and there is no
    recorder whose [onstop] could close it: whatever happens afterwards, the
    graph is never closed. *)
Theorem failed_setup_releases_nothing :
  streams (run initial Fixtures.failedSetup) = [{| trackStops := 0 |}]
  /\ contexts (run initial Fixtures.failedSetup) =
       [{| gain_value := 1%float; closeCalls := 0 |}]
  /\ recorders (run initial Fixtures.failedSetup) = []
  /\ error (run initial Fixtures.failedSetup) = Some microphoneError
  /\ (forall trace, exists g,
        contexts (run (run initial Fixtures.failedSetup) trace) !! 0%nat = Some g
        /\ closeCalls g = 0%nat).
Proof.
  repeat split; try reflexivity.
  intros trace.
  apply (graph0_orphaned_run trace (run initial Fixtures.failedSetup)).
  split; [eexists; split; reflexivity|constructor].
Qed.

(** On the path without failure the stream is stopped and the graph is
    closed, once each. *)
Example successful_session_releases :
  streams (run initial (recordingSession initial [Fixtures.c1])) = [{| trackStops := 1 |}]
  /\ map closeCalls (contexts (run initial (recordingSession initial [Fixtures.c1]))) = [1%nat].
Proof. split; reflexivity. Qed.

(** A second [startRecording] overwrites [streamRef]: [stopRecording]
    then stops the second stream only, and stops it again when called
    again. *)
Example overwritten_stream_is_not_stopped :
  streams (run initial (Fixtures.doubleStart ++ [StopRecording; StopRecording])) =
  [{| trackStops := 0 |}; {| trackStops := 2 |}].
Proof. reflexivity. Qed.

End Recorder.

(** * Part III: further properties of the code *)

(** ** Playback: failure modes, sample range, lossless decoding *)

Section PlaybackExtras.
Import Playback.

Lemma parity_cases (n : nat) : (n mod 2 = 0)%nat \/ (n mod 2 = 1)%nat.
Proof. pose proof (Nat.mod_upper_bound n 2). lia. Qed.

Lemma decodeRawPCM_cases (data : Uint8Array) :
  (data = [] /\ decodeRawPCM data = Throw NotSupportedError)
  \/ (data <> [] /\ (length data mod 2 = 0)%nat
      /\ exists buffer, decodeRawPCM data = Return buffer)
  \/ (data <> [] /\ (length data mod 2 = 1)%nat
      /\ decodeRawPCM data = Throw RangeError).
Proof.
  destruct data as [|b rest]; [left; split; reflexivity|right].
  destruct (parity_cases (length (b :: rest))) as [Heven|Hodd]; [left|right].
  - repeat split; [discriminate|exact Heven|].
    eexists. now apply decodeRawPCM_even.
  - repeat split; [discriminate|exact Hodd|now apply decodeRawPCM_odd].
Qed.

Lemma decodeRawPCM_returns_inv (data : Uint8Array) (buffer : AudioBuffer) :
  decodeRawPCM data = Return buffer ->
  data <> [] /\ (length data mod 2 = 0)%nat.
Proof.
  intros Hdec.
  destruct (decodeRawPCM_cases data) as [[_ H]|[(Hne & Hpar & _)|(_ & _ & H)]];
    [congruence|now split|congruence].
Qed.

(** X1.  [decodeRawPCM] fails in exactly two ways and only then: with a
    [RangeError] exactly when the number of bytes is odd, with a
    [NotSupportedError] exactly when there is no byte at all; it returns a
    buffer exactly for a non-empty input of even length. *)
Theorem decodeRawPCM_failure_modes (data : Uint8Array) :
  (decodeRawPCM data = Throw RangeError <-> (length data mod 2 = 1)%nat)
  /\ (decodeRawPCM data = Throw NotSupportedError <-> data = [])
  /\ ((exists buffer, decodeRawPCM data = Return buffer)
      <-> data <> [] /\ (length data mod 2 = 0)%nat).
Proof.
  destruct (decodeRawPCM_cases data)
    as [[-> Hdec]|[(Hne & Hpar & buffer & Hdec)|(Hne & Hpar & Hdec)]];
    rewrite Hdec; (split; [|split]); split;
    try discriminate; try congruence;
    try (intros [_ H]; rewrite H in Hpar; discriminate);
    try (intros [H _]; congruence);
    try (intros H; rewrite H in Hpar; discriminate);
    try (intros [? ?]; discriminate).
  - intros _. now split.
  - intros _. now exists buffer.
Qed.

Lemma sample_in_range (v : Z) :
  -32768 <= v <= 32767 -> in_sample_range (normalized v) = true.
Proof.
  intros Hv.
  assert (H : forall_between (-32768) 32767 (fun v => in_sample_range (normalized v)) = true)
    by (vm_compute; reflexivity).
  exact (forall_between_spec _ _ _ H v Hv).
Qed.

(** X2.  A non-empty input of even length decodes to a buffer with half
    as many samples as there are bytes, and every sample is a number in
    [-1, 1): at least -1 and below 1. *)
Theorem decoded_samples_in_range (data : Uint8Array) :
  data <> [] -> (length data mod 2 = 0)%nat ->
  exists buffer,
    decodeRawPCM data = Return buffer
    /\ length (channelData buffer) = (length data / 2)%nat
    /\ Forall (fun x => in_sample_range x = true) (channelData buffer).
Proof.
  intros Hne Heven. eexists. split; [now apply decodeRawPCM_even|].
  cbn [channelData]. split.
  - now rewrite length_map, int16_elements_length.
  - apply Forall_fmap. eapply Forall_impl; [apply int16_elements_range|].
    intros v Hv. now apply sample_in_range.
Qed.

Lemma decoded_samples_in_range_witness :
  exists buffer,
    decodeRawPCM [x00; x80; xff; x7f] = Return buffer
    /\ length (channelData buffer) = (length [x00; x80; xff; x7f] / 2)%nat
    /\ Forall (fun x => in_sample_range x = true) (channelData buffer).
Proof.
  apply (decoded_samples_in_range [x00; x80; xff; x7f]); [discriminate|reflexivity].
Defined.

Lemma normalized_inj (v1 v2 : Z) :
  -32768 <= v1 <= 32767 -> -32768 <= v2 <= 32767 ->
  normalized v1 = normalized v2 -> v1 = v2.
Proof.
  intros H1 H2 Heq.
  destruct (sample_lossless v1 H1) as [_ E1].
  destruct (sample_lossless v2 H2) as [_ E2].
  unfold exactly in E1, E2. rewrite Heq in E1.
  destruct (F2Q (normalized v2)) as [q|]; [|discriminate].
  apply Qeq_bool_iff in E1, E2.
  assert (Hq : (inject_Z v1 / 32768 == inject_Z v2 / 32768)%Q)
    by (now rewrite <- E1, <- E2).
  unfold Qeq in Hq. cbn in Hq. lia.
Qed.

Lemma u8_inj (b1 b2 : byte) : u8 b1 = u8 b2 -> b1 = b2.
Proof.
  unfold u8. intros H. apply N2Z.inj in H.
  pose proof (Byte.of_to_N b1) as H1. rewrite H, Byte.of_to_N in H1.
  congruence.
Qed.

Lemma int16_le_bytes (lo hi : byte) :
  u8 lo = int16_le lo hi mod 256 /\ u8 hi = (int16_le lo hi / 256) mod 256.
Proof.
  assert (H : forall_between 0 255 (fun a =>
              forall_between 0 255 (fun b =>
                let u := Z.lor a (Z.shiftl b 8) in
                let v := if u <? 32768 then u else u - 65536 in
                (a =? v mod 256) && (b =? (v / 256) mod 256))) = true)
    by (vm_compute; reflexivity).
  pose proof (forall_between_spec _ _ _ H (u8 lo) (u8_range lo)) as Hlo.
  cbv beta in Hlo.
  pose proof (forall_between_spec _ _ _ Hlo (u8 hi) (u8_range hi)) as Hhi.
  cbv beta zeta in Hhi. apply andb_prop in Hhi as [Ha Hb].
  apply Z.eqb_eq in Ha, Hb. split; assumption.
Qed.

Lemma int16_le_inj (lo hi lo' hi' : byte) :
  int16_le lo hi = int16_le lo' hi' -> lo = lo' /\ hi = hi'.
Proof.
  intros H.
  destruct (int16_le_bytes lo hi) as [Hlo Hhi].
  destruct (int16_le_bytes lo' hi') as [Hlo' Hhi'].
  rewrite <- H in Hlo', Hhi'.
  split; apply u8_inj; congruence.
Qed.

Lemma int16_elements_inj (d1 d2 : Uint8Array) :
  (length d1 mod 2 = 0)%nat -> (length d2 mod 2 = 0)%nat ->
  int16_elements d1 = int16_elements d2 -> d1 = d2.
Proof.
  revert d2. induction d1 as [d1 IH] using (induction_ltof1 _ (@length byte)).
  intros d2 H1 H2 Heq.
  destruct d1 as [|a [|b r1]], d2 as [|a' [|b' r2]];
    try reflexivity; try discriminate.
  cbn [int16_elements] in Heq. injection Heq as Hv Hrest.
  apply int16_le_inj in Hv as [-> ->].
  f_equal. f_equal. apply IH; try assumption.
  - unfold ltof. cbn. lia.
  - cbn [length] in H1.
    replace (S (S (length r1))) with (length r1 + 1 * 2)%nat in H1 by lia.
    now rewrite Nat.Div0.mod_add in H1.
  - cbn [length] in H2.
    replace (S (S (length r2))) with (length r2 + 1 * 2)%nat in H2 by lia.
    now rewrite Nat.Div0.mod_add in H2.
Qed.

Lemma map_normalized_inj (l1 l2 : list Z) :
  Forall (fun v => -32768 <= v <= 32767) l1 ->
  Forall (fun v => -32768 <= v <= 32767) l2 ->
  map normalized l1 = map normalized l2 -> l1 = l2.
Proof.
  intros H1. revert l2. induction H1 as [|v1 l1 Hv1 _ IH]; intros [|v2 l2] H2 Heq;
    try reflexivity; try discriminate.
  inversion H2 as [|? ? Hv2 Hl2]; subst.
  cbn [map] in Heq. injection Heq as Hv Hl.
  f_equal; [now apply normalized_inj|now apply IH].
Qed.

(** X3.  Decoding loses nothing: two inputs that decode to the same
    buffer are the same bytes. *)
Theorem decodeRawPCM_injective (d1 d2 : Uint8Array) (buffer : AudioBuffer) :
  decodeRawPCM d1 = Return buffer -> decodeRawPCM d2 = Return buffer -> d1 = d2.
Proof.
  intros H1 H2.
  destruct (decodeRawPCM_returns_inv d1 buffer H1) as [Hne1 Hev1].
  destruct (decodeRawPCM_returns_inv d2 buffer H2) as [Hne2 Hev2].
  rewrite (decodeRawPCM_even d1 Hne1 Hev1) in H1.
  rewrite (decodeRawPCM_even d2 Hne2 Hev2) in H2.
  rewrite <- H2 in H1. injection H1 as Hmap.
  apply int16_elements_inj; try assumption.
  apply map_normalized_inj; try assumption; apply int16_elements_range.
Qed.

Lemma decodeRawPCM_injective_witness : [x00; x80; xff; x7f] = [x00; x80; xff; x7f].
Proof.
  apply (decodeRawPCM_injective [x00; x80; xff; x7f] [x00; x80; xff; x7f]
           {| numberOfChannels := 1; sampleRate := 24000;
              channelData := [(-1)%float; 0.999969482421875%float] |});
    reflexivity.
Defined.

(** *** The call site *)

Lemma handleSpeak_accounts (remote : completion GeminiService.GenerateContentResponse)
    (p : Player) :
  snd (handleSpeak remote p) = Return tt
  /\ ((exists data buffer,
         GeminiService.speak remote = Return data
         /\ decodeRawPCM data = Return buffer
         /\ started (fst (handleSpeak remote p)) = started p ++ [buffer]
         /\ console (fst (handleSpeak remote p)) = console p)
      \/ (exists e,
            started (fst (handleSpeak remote p)) = started p
            /\ console (fst (handleSpeak remote p)) =
                 console p ++ [("Speech playback error:"%string, e)])).
Proof.
  unfold handleSpeak, speakAndPlay.
  destruct (GeminiService.speak remote) as [data|e]; cbn [bind].
  - destruct (decodeRawPCM data) as [buffer|e] eqn:Hdec; cbn.
    + split; [reflexivity|]. left. exists data, buffer. repeat split; assumption.
    + split; [reflexivity|]. right. exists e. split; reflexivity.
  - split; [reflexivity|]. right. exists e. split; reflexivity.
Qed.

Lemma decoded_buffer_playable (data : Uint8Array) (buffer : AudioBuffer) :
  decodeRawPCM data = Return buffer ->
  numberOfChannels buffer = 1 /\ sampleRate buffer = 24000
  /\ (0 < length (channelData buffer))%nat.
Proof.
  intros Hdec.
  destruct (decodeRawPCM_returns_inv data buffer Hdec) as [Hne Hev].
  rewrite (decodeRawPCM_even data Hne Hev) in Hdec. injection Hdec as <-.
  cbn. repeat split. rewrite length_map, int16_elements_length.
  destruct data as [|a [|b r]]; [congruence|discriminate|].
  cbn [length]. replace (S (S (length r))) with (1 * 2 + length r)%nat by lia.
  rewrite Nat.div_add_l by lia. lia.
Qed.

(** X4.  [handleSpeak] never throws.  When [speak] returned a non-empty
    buffer of even length it starts one source, on the decoding of that
    buffer, and logs nothing.  In every other case (the request failed, the
    response had no audio, the base64 text was invalid, the buffer was empty
    or odd) it starts nothing, the list of started sources being what it
    was, and logs one "Speech playback error:" entry.  So a source is
    started exactly in the first case and an error logged exactly in the
    others. *)
Theorem handleSpeak_plays_or_logs
    (remote : completion GeminiService.GenerateContentResponse) (p : Player) :
  snd (handleSpeak remote p) = Return tt
  /\ (forall data, GeminiService.speak remote = Return data ->
        data <> [] -> (length data mod 2 = 0)%nat ->
        exists buffer,
          decodeRawPCM data = Return buffer
          /\ started (fst (handleSpeak remote p)) = started p ++ [buffer]
          /\ console (fst (handleSpeak remote p)) = console p)
  /\ (~ (exists data, GeminiService.speak remote = Return data
                       /\ data <> [] /\ (length data mod 2 = 0)%nat) ->
      started (fst (handleSpeak remote p)) = started p
      /\ exists e, console (fst (handleSpeak remote p)) =
                     console p ++ [("Speech playback error:"%string, e)])
  /\ ((exists buffer, started (fst (handleSpeak remote p)) = started p ++ [buffer])
      <-> (exists data, GeminiService.speak remote = Return data
                        /\ data <> [] /\ (length data mod 2 = 0)%nat))
  /\ ((exists e, console (fst (handleSpeak remote p)) =
                   console p ++ [("Speech playback error:"%string, e)])
      <-> ~ (exists data, GeminiService.speak remote = Return data
                          /\ data <> [] /\ (length data mod 2 = 0)%nat)).
Proof.
  destruct (handleSpeak_accounts remote p)
    as [Hret [(data & buffer & Hs & Hdec & Hst & Hco)|(e & Hst & Hco)]].
  - destruct (decodeRawPCM_returns_inv data buffer Hdec) as [Hne Hev].
    split; [exact Hret|].
    split; [|split; [|split; split]].
    + intros data' Hs' _ _. rewrite Hs in Hs'. injection Hs' as <-.
      exists buffer. repeat split; assumption.
    + intros Hno. exfalso. apply Hno. now exists data.
    + intros _. now exists data.
    + intros _. now exists buffer.
    + intros [e He]. rewrite Hco in He.
      apply (f_equal (@length _)) in He. rewrite length_app in He. cbn in He. lia.
    + intros Hno. exfalso. apply Hno. now exists data.
  - assert (Hno : ~ (exists data, GeminiService.speak remote = Return data
                                  /\ data <> [] /\ (length data mod 2 = 0)%nat)).
    { intros (data & Hs & Hne & Hev).
      pose proof (decodeRawPCM_even data Hne Hev) as Hdec.
      unfold handleSpeak, speakAndPlay in Hst. rewrite Hs in Hst. cbn [bind] in Hst.
      rewrite Hdec in Hst. cbn in Hst.
      apply (f_equal (@length _)) in Hst. rewrite length_app in Hst. cbn in Hst. lia. }
    split; [exact Hret|].
    split; [|split; [|split; split]].
    + intros data Hs Hne Hev. exfalso. apply Hno. now exists data.
    + intros _. split; [exact Hst|now exists e].
    + intros [buffer Hb]. rewrite Hst in Hb.
      apply (f_equal (@length _)) in Hb. rewrite length_app in Hb. cbn in Hb. lia.
    + intros H. now exfalso.
    + intros _. exact Hno.
    + intros _. now exists e.
Qed.

(** A request that failed, a response without audio, and odd-length
    audio each leave the started sources alone and log one error. *)
Example handleSpeak_failures_start_nothing :
  let failures :=
    [Throw RemoteFailure;
     Return {| GeminiService.candidates := None |};
     Return Fixtures.three_byte_response] in
  map (fun remote => started (fst (handleSpeak remote initialPlayer))) failures = [[]; []; []]
  /\ map (fun remote => length (console (fst (handleSpeak remote initialPlayer)))) failures
     = [1; 1; 1]%nat.
Proof. split; reflexivity. Qed.

(** X5.  Over any number of calls of [handleSpeak], every call is
    accounted for by one started source or one logged error; earlier
    entries are kept in order; every buffer given to a source has one
    channel at 24000 Hz and at least one sample. *)
Theorem handleSpeakAll_accounts
    (remotes : list (completion GeminiService.GenerateContentResponse)) (p : Player) :
  (length (started (handleSpeakAll remotes p)) + length (console (handleSpeakAll remotes p))
   = length (started p) + length (console p) + length remotes)%nat
  /\ (exists played logged,
        started (handleSpeakAll remotes p) = started p ++ played
        /\ console (handleSpeakAll remotes p) = console p ++ logged
        /\ Forall (fun buffer => numberOfChannels buffer = 1 /\ sampleRate buffer = 24000
                                 /\ (0 < length (channelData buffer))%nat) played
        /\ Forall (fun entry => fst entry = "Speech playback error:"%string) logged).
Proof.
  revert p; induction remotes as [|remote remotes IH]; intros p.
  - cbn. split; [lia|]. exists [], []. rewrite !app_nil_r. repeat split; constructor.
  - change (handleSpeakAll (remote :: remotes) p)
      with (handleSpeakAll remotes (fst (handleSpeak remote p))).
    destruct (IH (fst (handleSpeak remote p))) as (Hcount & played & logged & Hs & Hc & Hp & Hl).
    destruct (handleSpeak_accounts remote p)
      as [_ [(data & buffer & _ & Hdec & Hs1 & Hc1)|(e & Hs1 & Hc1)]].
    + split.
      * rewrite Hcount, Hs1, Hc1, length_app. cbn. lia.
      * exists (buffer :: played), logged. rewrite Hs, Hc, Hs1, Hc1, <- app_assoc.
        repeat split; try assumption.
        constructor; [now apply (decoded_buffer_playable data)|assumption].
    + split.
      * rewrite Hcount, Hs1, Hc1, length_app. cbn. lia.
      * exists played, (("Speech playback error:"%string, e) :: logged).
        rewrite Hs, Hc, Hs1, Hc1, <- app_assoc.
        repeat split; try assumption. constructor; [reflexivity|assumption].
Qed.

End PlaybackExtras.

(** ** Recording: further invariants *)

Section RecorderExtras.
Import App.

Ltac unfold_setup :=
  unfold resume, begin, makeRecorder, buildGraph, acquire, failed.

Lemma run_cons (s : State) (e : event) (trace : list event) :
  run s (e :: trace) = run (step s e) trace.
Proof. reflexivity. Qed.

(** *** The recording indicator *)

Lemma indicator_step (s : State) (e : event) :
  (isRecording s = true -> (1 <= activeRecorders s)%nat) ->
  isRecording (step s e) = true -> (1 <= activeRecorders (step s e))%nat.
Proof.
  intros Hinv. destruct e as [val| |k outcome|r data|r|]; cbn [step].
  - exact Hinv.
  - exact Hinv.
  - destruct (awaiting s !! k) as [sens|]; [|exact Hinv].
    destruct s, outcome; unfold activeRecorders in *; unfold_setup; cbn in *;
      rewrite ?alter_snoc, ?List.filter_app, ?length_app; cbn; intros H;
      try specialize (Hinv H); lia.
  - destruct (recorders s !! r) as [rc|]; [|exact Hinv].
    destruct (delivers rc); [|exact Hinv].
    unfold ondataavailable. destruct (0 <? size data)%nat; exact Hinv.
  - destruct (recorders s !! r) as [rc|]; [|exact Hinv].
    destruct (stopQueued rc); [|exact Hinv].
    unfold activeRecorders in *. cbn.
    rewrite filter_alter_same by (intros []; reflexivity). exact Hinv.
  - unfold stopRecording. cbn. discriminate.
Qed.

(** X6.  In every state the component can reach, [isRecording] (the
    "Recording Active" indicator) is true only while at least one recorder
    is recording. *)
Theorem indicator_implies_recording (trace : list event) :
  isRecording (run initial trace) = true ->
  (1 <= activeRecorders (run initial trace))%nat.
Proof.
  assert (H : forall s, (isRecording s = true -> (1 <= activeRecorders s)%nat) ->
                        isRecording (run s trace) = true ->
                        (1 <= activeRecorders (run s trace))%nat).
  { induction trace as [|e trace IH]; intros s Hinv; [exact Hinv|].
    rewrite run_cons. apply IH. now apply indicator_step. }
  apply H. discriminate.
Qed.

Lemma indicator_implies_recording_witness :
  (1 <= activeRecorders (run initial Fixtures.recordingInProgress))%nat.
Proof.
  apply (indicator_implies_recording Fixtures.recordingInProgress). reflexivity.
Defined.

(** The converse fails: after a second start, releasing the button
    stops the second recorder only; the first one goes on recording with
    the indicator off. *)
Example recording_without_indicator :
  isRecording (run initial (Fixtures.doubleStart ++ [StopRecording])) = false
  /\ activeRecorders (run initial (Fixtures.doubleStart ++ [StopRecording])) = 1%nat.
Proof. split; reflexivity. Qed.

(** *** Releasing the button before the stream has arrived *)

Lemma stopRecording_keeps (s : State) :
  awaiting (stopRecording s) = awaiting s
  /\ length (recorders (stopRecording s)) = length (recorders s)
  /\ contexts (stopRecording s) = contexts s
  /\ audioChunksRef (stopRecording s) = audioChunksRef s
  /\ handedOff (stopRecording s) = handedOff s
  /\ sensitivity (stopRecording s) = sensitivity s
  /\ isRecording (stopRecording s) = false.
Proof.
  unfold stopRecording.
  destruct (mediaRecorderRef s) as [r|];
    [destruct (recorders s !! r) as [rc|]; [destruct (rec_state rc)|]|];
    match goal with
    | |- context [streamRef ?s1] => destruct (streamRef s1)
    end; cbn; rewrite ?length_alter; repeat split; reflexivity.
Qed.

Lemma resume_succeeds (sens : Z) (s : State) :
  isRecording (resume sens SetupSucceeds s) = true
  /\ mediaRecorderRef (resume sens SetupSucceeds s) = Some (length (recorders s))
  /\ recorders (resume sens SetupSucceeds s) =
       recorders s ++ [{| rec_state := recording; stopQueued := false;
                          rec_context := length (contexts s) |}]
  /\ contexts (resume sens SetupSucceeds s) =
       contexts s ++ [{| gain_value := gainValue sens; closeCalls := 0 |}]
  /\ streams (resume sens SetupSucceeds s) = streams s ++ [{| trackStops := 0 |}]
  /\ streamRef (resume sens SetupSucceeds s) = Some (length (streams s)).
Proof.
  destruct s. unfold_setup. cbn. rewrite alter_snoc. repeat split; reflexivity.
Qed.

(** X7.  Releasing the button while [startRecording] is suspended at
    [getUserMedia] cancels nothing: when the stream arrives the recorder is
    created and started, [mediaRecorderRef] holds it, [isRecording] becomes
    true, and its gain is the one of the sensitivity at the press. *)
Theorem release_does_not_cancel_pending_start (s : State) :
  isRecording
    (run s [StartRecording; StopRecording;
            UserMediaSettled (length (awaiting s)) SetupSucceeds]) = true
  /\ mediaRecorderRef
       (run s [StartRecording; StopRecording;
               UserMediaSettled (length (awaiting s)) SetupSucceeds]) =
     Some (length (recorders s))
  /\ recorders
       (run s [StartRecording; StopRecording;
               UserMediaSettled (length (awaiting s)) SetupSucceeds])
     !! length (recorders s) =
     Some {| rec_state := recording; stopQueued := false;
             rec_context := length (contexts s) |}
  /\ liveGain
       (run s [StartRecording; StopRecording;
               UserMediaSettled (length (awaiting s)) SetupSucceeds]) =
     Some (gainValue (sensitivity s)).
Proof.
  set (s2 := stopRecording (startRecording s)).
  change (run s [StartRecording; StopRecording;
                 UserMediaSettled (length (awaiting s)) SetupSucceeds])
    with (step s2 (UserMediaSettled (length (awaiting s)) SetupSucceeds)).
  destruct (stopRecording_keeps (startRecording s)) as (Ha & Hl & Hc & _ & _ & _ & _).
  fold s2 in Ha, Hl, Hc.
  cbn [awaiting startRecording set_awaiting set_audioChunksRef set_error recorders contexts]
    in Ha, Hl, Hc.
  assert (Hk : awaiting s2 !! length (awaiting s) = Some (sensitivity s))
    by (rewrite Ha; apply lookup_snoc).
  split; [|split; [|split]]; [| | |now apply liveGain_after_setup].
  all: cbn [step]; rewrite Hk;
    destruct (resume_succeeds (sensitivity s)
                (set_awaiting (delete (length (awaiting s)) (awaiting s2)) s2))
      as (Hi & Hm & Hr & _);
    cbn [recorders contexts set_awaiting] in Hm, Hr.
  - exact Hi.
  - now rewrite Hm, Hl.
  - rewrite Hr, <- Hl, Hc. apply lookup_snoc.
Qed.

(** *** Audio graphs once built *)

Lemma graph_kept_by_step (s : State) (e : event) (c : nat) (g : AudioGraph) :
  contexts s !! c = Some g ->
  exists g', contexts (step s e) !! c = Some g'
             /\ gain_value g' = gain_value g
             /\ (closeCalls g <= closeCalls g')%nat.
Proof.
  intros Hc.
  assert (Hsame : exists g', contexts s !! c = Some g'
             /\ gain_value g' = gain_value g /\ (closeCalls g <= closeCalls g')%nat)
    by (exists g; repeat split; [assumption|lia]).
  destruct e as [val| |k outcome|r data|r|]; cbn [step]; try exact Hsame.
  - destruct (awaiting s !! k) as [sens|]; [|exact Hsame].
    destruct s, outcome; unfold_setup; cbn in *; try exact Hsame;
      exists g; (repeat split; [|lia]); now apply lookup_app_l_Some.
  - destruct (recorders s !! r) as [rc|]; [|exact Hsame].
    destruct (delivers rc); [|exact Hsame].
    unfold ondataavailable. destruct (0 <? size data)%nat; exact Hsame.
  - destruct (recorders s !! r) as [rc|]; [|exact Hsame].
    destruct (stopQueued rc); [|exact Hsame].
    cbn. destruct (decide (rec_context rc = c)) as [->|Hne].
    + exists (closed g). rewrite list_lookup_alter_eq, Hc. cbn.
      repeat split; lia.
    + rewrite list_lookup_alter_ne by exact Hne. exact Hsame.
  - unfold stopRecording.
    destruct (mediaRecorderRef s) as [r|];
      [destruct (recorders s !! r) as [rc|]; [destruct (rec_state rc)|]|];
      match goal with
      | |- context [streamRef ?s1] => destruct (streamRef s1)
      end; exact Hsame.
Qed.

(** X8.  Whatever happens after an audio graph has been built, it stays
    in place with the gain it was built with, and the number of [close()]
    calls it has received never decreases. *)
Theorem gain_of_a_graph_never_changes (s : State) (trace : list event)
    (c : nat) (g : AudioGraph) :
  contexts s !! c = Some g ->
  exists g', contexts (run s trace) !! c = Some g'
             /\ gain_value g' = gain_value g
             /\ (closeCalls g <= closeCalls g')%nat.
Proof.
  revert s g; induction trace as [|e trace IH]; intros s g Hc.
  - exists g. repeat split; [assumption|lia].
  - rewrite run_cons.
    destruct (graph_kept_by_step s e c g Hc) as (g1 & H1 & Hgain1 & Hclose1).
    destruct (IH (step s e) g1 H1) as (g2 & H2 & Hgain2 & Hclose2).
    exists g2. repeat split; [assumption|congruence|lia].
Qed.

Lemma gain_of_a_graph_never_changes_witness :
  exists g', contexts (run (run initial Fixtures.recordingInProgress)
                         [SetSensitivity 100; StopRecording; Stopped 0;
                          StartRecording; UserMediaSettled 0 SetupSucceeds]) !! 0%nat = Some g'
             /\ gain_value g' = gain_value {| gain_value := 1%float; closeCalls := 0 |}
             /\ (closeCalls {| gain_value := 1%float; closeCalls := 0 |} <= closeCalls g')%nat.
Proof.
  apply (gain_of_a_graph_never_changes (run initial Fixtures.recordingInProgress)
           [SetSensitivity 100; StopRecording; Stopped 0;
            StartRecording; UserMediaSettled 0 SetupSucceeds] 0%nat
           {| gain_value := 1%float; closeCalls := 0 |}).
  reflexivity.
Defined.

(** *** The sensitivity a suspended start uses *)

(** X9.  A [startRecording] suspended at [getUserMedia] uses the
    sensitivity of the render in which the button was pressed: slider moves
    made before the stream arrives do not reach the recording it
    starts. *)
Theorem suspended_start_keeps_its_sensitivity (s : State) (vals : list Z) :
  liveGain
    (run s ([StartRecording] ++ map SetSensitivity vals
            ++ [UserMediaSettled (length (awaiting s)) SetupSucceeds])) =
  Some (gainValue (sensitivity s)).
Proof.
  rewrite !run_app.
  change (run s [StartRecording]) with (step s StartRecording).
  set (s1 := step s StartRecording).
  destruct (run_set_sensitivity vals s1) as (_ & _ & _ & Ha).
  change (run ?s0 [UserMediaSettled ?k ?o]) with (step s0 (UserMediaSettled k o)).
  apply liveGain_after_setup. rewrite Ha. apply lookup_snoc.
Qed.

Example slider_moved_while_suspended :
  liveGain (run initial [StartRecording; SetSensitivity 100;
                         UserMediaSettled 0 SetupSucceeds]) = Some 1%float
  /\ sensitivity (run initial [StartRecording; SetSensitivity 100;
                               UserMediaSettled 0 SetupSucceeds]) = 100.
Proof. split; reflexivity. Qed.

(** *** Handoffs and releases of the button *)

Lemma filter_alter_bounds {A : Type} (p : A -> bool) (f : A -> A) (i : nat) (l : list A) :
  (length (List.filter p (alter f i l)) <= S (length (List.filter p l)))%nat.
Proof.
  revert i; induction l as [|x l IH]; intros [|i]; cbn; try lia.
  - destruct (p (f x)), (p x); cbn; lia.
  - specialize (IH i). destruct (p x); cbn; lia.
Qed.

Lemma filter_alter_drop {A : Type} (p : A -> bool) (f : A -> A) (i : nat) (l : list A) (x : A) :
  l !! i = Some x -> p x = true -> p (f x) = false ->
  S (length (List.filter p (alter f i l))) = length (List.filter p l).
Proof.
  revert i; induction l as [|y l IH]; intros [|i] Hi Hx Hfx; try discriminate.
  - cbn in Hi. injection Hi as ->. cbn. now rewrite Hx, Hfx.
  - cbn in Hi. cbn. destruct (p y); cbn; rewrite <- (IH i Hi Hx Hfx); reflexivity.
Qed.

Lemma handoff_step (s : State) (e : event) :
  (length (handedOff (step s e)) + queuedStops (step s e)
   <= length (handedOff s) + queuedStops s + (if isStopRecording e then 1 else 0))%nat.
Proof.
  unfold queuedStops.
  destruct e as [val| |k outcome|r data|r|]; cbn [step isStopRecording]; try (cbn; lia).
  - destruct (awaiting s !! k) as [sens|]; [|lia].
    destruct s, outcome; unfold_setup; cbn;
      rewrite ?alter_snoc, ?List.filter_app, ?length_app; cbn; lia.
  - destruct (recorders s !! r) as [rc|]; [|lia].
    destruct (delivers rc); [|lia].
    unfold ondataavailable. destruct (0 <? size data)%nat; cbn; lia.
  - destruct (recorders s !! r) as [rc|] eqn:Hr; [|lia].
    destruct (stopQueued rc) eqn:Hq; [|lia].
    cbn. rewrite length_app. cbn.
    pose proof (filter_alter_drop stopQueued settled r (recorders s) rc Hr Hq eq_refl).
    lia.
  - unfold stopRecording.
    destruct (mediaRecorderRef s) as [r|];
      [destruct (recorders s !! r) as [rc|]; [destruct (rec_state rc)|]|];
      match goal with
      | |- context [streamRef ?s1] => destruct (streamRef s1)
      end; cbn; try lia;
      pose proof (filter_alter_bounds stopQueued stopped r (recorders s)); lia.
Qed.

(** X10.  Blobs are handed off only after [stopRecording]: in any run,
    the blobs handed off plus the recorders that still owe their [stop]
    event are at most the earlier ones plus the number of [stopRecording]
    calls; from the initial state there are never more handoffs than
    [stopRecording] calls. *)
Theorem handoffs_bounded_by_stops (s : State) (trace : list event) :
  (length (handedOff (run s trace)) + queuedStops (run s trace)
   <= length (handedOff s) + queuedStops s + countStops trace)%nat
  /\ (length (handedOff (run initial trace)) <= countStops trace)%nat.
Proof.
  assert (H : forall t s0,
    (length (handedOff (run s0 t)) + queuedStops (run s0 t)
     <= length (handedOff s0) + queuedStops s0 + countStops t)%nat).
  { induction t as [|e t IH]; intros s0; [cbn; lia|].
    rewrite run_cons. specialize (IH (step s0 e)).
    pose proof (handoff_step s0 e). unfold countStops in *. cbn [List.filter].
    destruct (isStopRecording e); cbn [length]; lia. }
  split; [apply H|].
  specialize (H trace initial). cbn in H. lia.
Qed.

(** *** A start that fails *)

(** X11.  When the rest of [startRecording] fails at any point, the
    error message is set, [isRecording] is what it was, no recorder has
    started recording, and neither the buffer nor the handoffs change. *)
Theorem failed_start_reports_and_records_nothing
    (s : State) (k : nat) (sens : Z) (outcome : setup) :
  awaiting s !! k = Some sens ->
  outcome <> SetupSucceeds ->
  error (step s (UserMediaSettled k outcome)) = Some microphoneError
  /\ isRecording (step s (UserMediaSettled k outcome)) = isRecording s
  /\ activeRecorders (step s (UserMediaSettled k outcome)) = activeRecorders s
  /\ audioChunksRef (step s (UserMediaSettled k outcome)) = audioChunksRef s
  /\ handedOff (step s (UserMediaSettled k outcome)) = handedOff s
  /\ length (awaiting (step s (UserMediaSettled k outcome))) = (length (awaiting s) - 1)%nat.
Proof.
  intros Hk Hout. cbn [step]. rewrite Hk.
  assert (Hlen : length (delete k (awaiting s)) = (length (awaiting s) - 1)%nat)
    by (apply length_delete; eauto).
  destruct s, outcome; try congruence; unfold activeRecorders; unfold_setup; cbn in *;
    rewrite ?List.filter_app, ?length_app; cbn; repeat split; try assumption; lia.
Qed.

Lemma failed_start_reports_and_records_nothing_witness :
  error (step (step initial StartRecording) (UserMediaSettled 0 AcquireFails)) =
    Some microphoneError
  /\ isRecording (step (step initial StartRecording) (UserMediaSettled 0 AcquireFails)) =
       isRecording (step initial StartRecording)
  /\ activeRecorders (step (step initial StartRecording) (UserMediaSettled 0 AcquireFails)) =
       activeRecorders (step initial StartRecording)
  /\ audioChunksRef (step (step initial StartRecording) (UserMediaSettled 0 AcquireFails)) =
       audioChunksRef (step initial StartRecording)
  /\ handedOff (step (step initial StartRecording) (UserMediaSettled 0 AcquireFails)) =
       handedOff (step initial StartRecording)
  /\ length (awaiting (step (step initial StartRecording) (UserMediaSettled 0 AcquireFails))) =
       (length (awaiting (step initial StartRecording)) - 1)%nat.
Proof.
  apply (failed_start_reports_and_records_nothing (step initial StartRecording) 0 50 AcquireFails).
  - reflexivity.
  - discriminate.
Defined.

(** *** What the buffer and the handoffs hold *)

Lemma buffer_and_handoffs_step (s : State) (e : event) :
  Forall (fun c => (0 < size c)%nat) (audioChunksRef s) ->
  Forall (fun b => blob_type b = "audio/webm"%string) (handedOff s) ->
  Forall (fun c => (0 < size c)%nat) (audioChunksRef (step s e))
  /\ Forall (fun b => blob_type b = "audio/webm"%string) (handedOff (step s e)).
Proof.
  intros Hc Hb. destruct e as [val| |k outcome|r data|r|]; cbn [step].
  - now split.
  - split; [constructor|exact Hb].
  - destruct (awaiting s !! k) as [sens|]; [|now split].
    destruct s, outcome; now split.
  - destruct (recorders s !! r) as [rc|]; [|now split].
    destruct (delivers rc); [|now split].
    unfold ondataavailable. destruct (0 <? size data)%nat eqn:Hsize; [|now split].
    cbn. split; [|exact Hb]. apply Forall_app. split; [exact Hc|].
    constructor; [now apply Nat.ltb_lt|constructor].
  - destruct (recorders s !! r) as [rc|]; [|now split].
    destruct (stopQueued rc); [|now split].
    cbn. split; [exact Hc|]. apply Forall_app. split; [exact Hb|].
    constructor; [reflexivity|constructor].
  - unfold stopRecording.
    destruct (mediaRecorderRef s) as [r|];
      [destruct (recorders s !! r) as [rc|]; [destruct (rec_state rc)|]|];
      match goal with
      | |- context [streamRef ?s1] => destruct (streamRef s1)
      end; now split.
Qed.

(** X12.  In every state the component can reach, every chunk in the
    buffer has a size above zero, and every blob handed off has the type
    audio/webm. *)
Theorem buffer_holds_data_and_handoffs_are_webm (trace : list event) :
  Forall (fun c => (0 < size c)%nat) (audioChunksRef (run initial trace))
  /\ Forall (fun b => blob_type b = "audio/webm"%string) (handedOff (run initial trace)).
Proof.
  assert (H : forall t s,
    Forall (fun c => (0 < size c)%nat) (audioChunksRef s) ->
    Forall (fun b => blob_type b = "audio/webm"%string) (handedOff s) ->
    Forall (fun c => (0 < size c)%nat) (audioChunksRef (run s t))
    /\ Forall (fun b => blob_type b = "audio/webm"%string) (handedOff (run s t))).
  { induction t as [|e t IH]; intros s Hc Hb; [now split|].
    rewrite run_cons.
    destruct (buffer_and_handoffs_step s e Hc Hb) as [Hc' Hb']. now apply IH. }
  apply H; constructor.
Qed.

(** *** Releasing the button while nothing records *)

Lemma filter_none {A : Type} (p : A -> bool) (l : list A) (i : nat) (x : A) :
  length (List.filter p l) = 0%nat -> l !! i = Some x -> p x = false.
Proof.
  revert i; induction l as [|y l IH]; intros [|i] Hlen Hi; try discriminate.
  - cbn in Hi. injection Hi as ->. cbn in Hlen. now destruct (p x).
  - cbn in Hi, Hlen. destruct (p y); [discriminate|]. now apply (IH i).
Qed.

(** X13.  [stopRecording] while no recorder is recording and none owes
    its [stop] event changes no recorder and no audio graph, leaves the
    buffer alone and hands off nothing, also when a [stop] event is then
    fired at any recorder; [isRecording] is false afterwards. *)
Theorem stop_while_idle_hands_nothing_off (s : State) (r : nat) :
  activeRecorders s = 0%nat -> queuedStops s = 0%nat ->
  recorders (run s [StopRecording; Stopped r]) = recorders s
  /\ contexts (run s [StopRecording; Stopped r]) = contexts s
  /\ audioChunksRef (run s [StopRecording; Stopped r]) = audioChunksRef s
  /\ handedOff (run s [StopRecording; Stopped r]) = handedOff s
  /\ isRecording (run s [StopRecording; Stopped r]) = false.
Proof.
  intros Hact Hq.
  assert (Hstop : recorders (stopRecording s) = recorders s).
  { unfold stopRecording.
    destruct (mediaRecorderRef s) as [r0|] eqn:Href;
      [destruct (recorders s !! r0) as [rc|] eqn:Hr0; [destruct (rec_state rc) eqn:Hst|]|];
      match goal with
      | |- context [streamRef ?s1] => destruct (streamRef s1)
      end; try reflexivity;
      pose proof (filter_none isRecorderActive _ _ _ Hact Hr0) as Hin;
      unfold isRecorderActive in Hin; rewrite Hst in Hin; discriminate. }
  destruct (stopRecording_keeps s) as (_ & _ & Hc & Hch & Hh & _ & Hi).
  change (run s [StopRecording; Stopped r]) with (step (stopRecording s) (Stopped r)).
  cbn [step]. rewrite Hstop.
  destruct (recorders s !! r) as [rc|] eqn:Hr; [|now repeat split].
  rewrite (filter_none stopQueued _ _ _ Hq Hr). now repeat split.
Qed.

Lemma stop_while_idle_hands_nothing_off_witness :
  recorders (run initial [StopRecording; Stopped 0]) = recorders initial
  /\ contexts (run initial [StopRecording; Stopped 0]) = contexts initial
  /\ audioChunksRef (run initial [StopRecording; Stopped 0]) = audioChunksRef initial
  /\ handedOff (run initial [StopRecording; Stopped 0]) = handedOff initial
  /\ isRecording (run initial [StopRecording; Stopped 0]) = false.
Proof.
  apply (stop_while_idle_hands_nothing_off initial 0); reflexivity.
Defined.

(** *** Release on the path without failure *)




End RecorderExtras.

(** ** The settings panel *)

Section SettingsPanelFacts.
Import SettingsPanel.

Lemma find_default_spec (audioInputs : list MediaDeviceInfo) (d : MediaDeviceInfo) :
  defaultDevice audioInputs = Some d ->
  In d audioInputs
  /\ ((exists d', In d' audioInputs /\ deviceId d' = "default"%string) ->
      deviceId d = "default"%string)
  /\ ((forall d', In d' audioInputs -> deviceId d' <> "default"%string) ->
      head audioInputs = Some d).
Proof.
  unfold defaultDevice.
  destruct (List.find _ audioInputs) as [d0|] eqn:Hfind.
  - intros [= <-]. apply List.find_some in Hfind as [Hin Hid].
    apply String.eqb_eq in Hid. split; [exact Hin|]. split; [intros _; exact Hid|].
    intros Hnone. exfalso. now apply (Hnone d0).
  - intros Hhead. split; [|split].
    + destruct audioInputs as [|x l]; [discriminate|].
      cbn in Hhead. injection Hhead as <-. now left.
    + intros (d' & Hin & Hid).
      pose proof (List.find_none _ _ Hfind d' Hin) as Hno. cbn in Hno.
      rewrite Hid in Hno. discriminate.
    + intros _. exact Hhead.
Qed.

(** X15.  After [refreshDevices], [devices] are the audio inputs of
    the enumeration, in order.  The selection is left alone when the
    closure holds a non-empty [selectedDeviceId] or when there is no audio
    input; otherwise it becomes the id of an audio input of the
    enumeration: "default" if an audio input has that id, else the id of
    the first audio input. *)
Theorem refreshDevices_selection (captured : string) (devList : list MediaDeviceInfo)
    (st : Selection) :
  let st' := refreshDevices captured (Return tt) (Return devList) st in
  devices st' = List.filter isAudioInput devList
  /\ (truthy captured = true -> selectedDeviceId st' = selectedDeviceId st)
  /\ (List.filter isAudioInput devList = [] -> selectedDeviceId st' = selectedDeviceId st)
  /\ (truthy captured = false -> List.filter isAudioInput devList <> [] ->
      exists d, In d devList /\ kind d = "audioinput"%string
                /\ selectedDeviceId st' = deviceId d
                /\ ((exists d', In d' devList /\ kind d' = "audioinput"%string
                                /\ deviceId d' = "default"%string) ->
                    selectedDeviceId st' = "default"%string)
                /\ ((forall d', In d' devList -> kind d' = "audioinput"%string ->
                                deviceId d' <> "default"%string) ->
                    head (List.filter isAudioInput devList) = Some d)).
Proof.
  cbv zeta. unfold refreshDevices.
  set (audioInputs := List.filter isAudioInput devList).
  assert (Hin : forall d, In d audioInputs <-> In d devList /\ kind d = "audioinput"%string).
  { intros d. unfold audioInputs. rewrite List.filter_In. unfold isAudioInput.
    now rewrite String.eqb_eq. }
  destruct (truthy captured) eqn:Hcap; cbn [negb andb].
  - rewrite andb_false_r. cbn. repeat split; try reflexivity; discriminate.
  - rewrite andb_true_r.
    destruct audioInputs as [|x l] eqn:Hai.
    + cbn. repeat split; try reflexivity; congruence.
    + cbn [length Nat.ltb Nat.leb].
      destruct (defaultDevice (x :: l)) as [d|] eqn:Hdef.
      * destruct (find_default_spec _ _ Hdef) as (Hd & Hyes & Hno).
        cbn [devices selectedDeviceId].
        split; [reflexivity|]. split; [discriminate|]. split; [discriminate|].
        intros _ _. exists d. apply Hin in Hd as [Hd Hkind].
        repeat split; try assumption.
        -- intros (d' & Hd' & Hk' & Hid'). apply Hyes. exists d'. split; [|exact Hid'].
           apply Hin. now split.
        -- intros Hnone. apply Hno. intros d' Hd'. apply Hin in Hd' as [Hd' Hk'].
           now apply Hnone.
      * unfold defaultDevice in Hdef.
        destruct (List.find _ (x :: l)); discriminate.
Qed.

(** The device that a refresh selects when nothing was selected. *)
Lemma refresh_unselected (devList : list MediaDeviceInfo) (st : Selection)
    (d : MediaDeviceInfo) :
  defaultDevice (List.filter isAudioInput devList) = Some d ->
  selectedDeviceId (refreshDevices EmptyString (Return tt) (Return devList) st) = deviceId d.
Proof.
  intros Hdef. unfold refreshDevices. cbn [truthy String.eqb negb andb].
  rewrite andb_true_r, Hdef.
  destruct (List.filter isAudioInput devList); [discriminate|reflexivity].
Qed.

(** X16.  The listener for [devicechange] is the closure of the render
    that opened the panel.  When the panel was opened with nothing
    selected, a device chosen by hand is in force only until the next
    [devicechange]: the refresh then selects the default device of the new
    enumeration again, whatever the choice was. *)
Theorem devicechange_overrides_manual_choice
    (p : Panel) (first next : list MediaDeviceInfo) (choice : string)
    (d : MediaDeviceInfo) :
  isOpen p = false ->
  selectedDeviceId (selection p) = EmptyString ->
  defaultDevice (List.filter isAudioInput next) = Some d ->
  selectedDeviceId
    (selection (panelRun p [Open (Return tt) (Return first); Select choice]))
  = choice
  /\ selectedDeviceId
       (selection (panelRun p [Open (Return tt) (Return first); Select choice;
                               DeviceChange (Return tt) (Return next)]))
     = deviceId d.
Proof.
  intros Hclosed Hnone Hdef.
  cbn [panelRun fold_left panelStep]. rewrite Hclosed.
  cbn [panelStep isOpen listener selection selectedDeviceId devices].
  split; [reflexivity|].
  rewrite Hnone. now apply refresh_unselected.
Qed.

Lemma devicechange_overrides_manual_choice_witness :
  selectedDeviceId
    (selection (panelRun {| isOpen := false;
                            selection := {| devices := []; selectedDeviceId := EmptyString |};
                            listener := None |}
                  [Open (Return tt) (Return []); Select "usb-mic"%string]))
  = "usb-mic"%string
  /\ selectedDeviceId
       (selection (panelRun {| isOpen := false;
                               selection := {| devices := []; selectedDeviceId := EmptyString |};
                               listener := None |}
                     [Open (Return tt) (Return []); Select "usb-mic"%string;
                      DeviceChange (Return tt)
                        (Return [{| kind := "audioinput"%string; deviceId := "usb-mic"%string;
                                    label := "USB"%string |};
                                 {| kind := "audioinput"%string; deviceId := "default"%string;
                                    label := "Default"%string |}])]))
     = deviceId {| kind := "audioinput"%string; deviceId := "default"%string;
                   label := "Default"%string |}.
Proof.
  apply (devicechange_overrides_manual_choice
           {| isOpen := false;
              selection := {| devices := []; selectedDeviceId := EmptyString |};
              listener := None |}
           []
           [{| kind := "audioinput"%string; deviceId := "usb-mic"%string;
               label := "USB"%string |};
            {| kind := "audioinput"%string; deviceId := "default"%string;
               label := "Default"%string |}]
           "usb-mic"%string
           {| kind := "audioinput"%string; deviceId := "default"%string;
              label := "Default"%string |}); reflexivity.
Defined.

(** *** The preview stream *)


Lemma stopTracks_lookup (c : option nat) (streams : list App.MediaStream)
    (i : nat) (m' : App.MediaStream) :
  stopTracks c streams !! i = Some m' ->
  exists m, streams !! i = Some m
            /\ (App.trackStops m <= App.trackStops m')%nat
            /\ (c = Some i -> (1 <= App.trackStops m')%nat).
Proof.
  destruct c as [j|]; cbn [stopTracks].
  - rewrite list_lookup_alter. destruct (decide (j = i)) as [->|Hne].
    + destruct (streams !! i) as [m|]; [|discriminate].
      cbn. intros [= <-]. exists m. repeat split; cbn; lia.
    + intros H. exists m'. repeat split; [assumption|lia|congruence].
  - intros H. exists m'. repeat split; [assumption|lia|discriminate].
Qed.

Lemma previewInv_step (p : Preview) (e : previewEvent) :
  previewInv p ->
  (isProps e = true -> acquiring p = 0%nat) ->
  previewInv (previewStep p e).
Proof.
  intros Hp Hdisc. pose proof Hp as (Hle & Hopen & Hlive).
  destruct e as [open device| |]; cbn [previewStep].
  - destruct (Bool.eqb open (previewOpen p) && String.eqb device (previewDevice p));
      [exact Hp|].
    specialize (Hdisc eq_refl).
    assert (Hnone : forall i m,
      stopTracks (stream p) (stopTracks (effectStream p) (previewStreams p)) !! i = Some m ->
      isLive m = true -> False).
    { intros i m2 H2 Hl. unfold isLive in Hl. apply Nat.eqb_eq in Hl.
      destruct (stopTracks_lookup _ _ _ _ H2) as (m1 & H1 & Hle1 & Hc1).
      destruct (stopTracks_lookup _ _ _ _ H1) as (m0 & H0 & Hle0 & _).
      assert (Hl0 : isLive m0 = true) by (unfold isLive; apply Nat.eqb_eq; lia).
      destruct (Hlive i m0 H0 Hl0) as (Hs & _ & _).
      specialize (Hc1 Hs). lia. }
    destruct open; unfold previewInv; cbn; rewrite Hdisc;
      (split; [lia|split; [intros; first [reflexivity|discriminate]|]]);
      intros i m Hi Hl; exfalso; exact (Hnone i m Hi Hl).
  - destruct (acquiring p) as [|n] eqn:Hacq; [exact Hp|].
    assert (n = 0%nat) by lia. subst n.
    unfold previewInv. cbn. split; [lia|split; [discriminate|]].
    intros i m Hi Hl. rewrite (Hopen eq_refl).
    destruct (decide (i = length (previewStreams p))) as [->|Hne]; [repeat split|];
      rewrite lookup_app_l in Hi
        by (apply lookup_lt_Some in Hi; rewrite length_app in Hi; cbn in Hi; lia);
      destruct (Hlive i m Hi Hl) as (_ & H0 & _); discriminate.
  - destruct (acquiring p) as [|n] eqn:Hacq; [exact Hp|].
    assert (n = 0%nat) by lia. subst n.
    unfold previewInv. cbn. split; [lia|split; [discriminate|]].
    intros i m Hi Hl. destruct (Hlive i m Hi Hl) as (_ & H0 & _); discriminate.
Qed.

Lemma settledPreview_inv (p : Preview) : settledPreview p -> previewInv p.
Proof.
  induction 1 as [|p e _ IH Hd].
  - unfold previewInv. cbn. split; [lia|split; [discriminate|]].
    intros k m Hk. rewrite lookup_nil in Hk. discriminate.
  - now apply previewInv_step.
Qed.

(** X17.  When the props of the panel change only while no
    [getUserMedia] call of the preview is pending, at most one preview
    stream is live (has tracks that were never stopped): a live stream is
    the one in [stream], and the panel is open. *)
Theorem preview_stream_is_stopped_before_the_next
    (p : Preview) (i j : nat) (mi mj : App.MediaStream) :
  settledPreview p ->
  previewStreams p !! i = Some mi -> isLive mi = true ->
  previewStreams p !! j = Some mj -> isLive mj = true ->
  i = j /\ stream p = Some i /\ previewOpen p = true.
Proof.
  intros Hreach Hi Hli Hj Hlj.
  destruct (settledPreview_inv p Hreach) as (_ & _ & Hlive).
  destruct (Hlive i mi Hi Hli) as (Hsi & _ & Ho).
  destruct (Hlive j mj Hj Hlj) as (Hsj & _ & _).
  repeat split; try assumption. congruence.
Qed.

Lemma preview_stream_is_stopped_before_the_next_witness :
  1%nat = 1%nat
  /\ stream (fold_left previewStep
               [Props true "mic-a"%string; Acquired; Props true "mic-b"%string; Acquired]
               initialPreview) = Some 1%nat
  /\ previewOpen (fold_left previewStep
                    [Props true "mic-a"%string; Acquired; Props true "mic-b"%string; Acquired]
                    initialPreview) = true.
Proof.
  apply (preview_stream_is_stopped_before_the_next
           (fold_left previewStep
              [Props true "mic-a"%string; Acquired; Props true "mic-b"%string; Acquired]
              initialPreview)
           1 1 {| App.trackStops := 0 |} {| App.trackStops := 0 |});
    try reflexivity.
  cbn [fold_left].
  repeat (apply settledPreview_step; [|first [discriminate | intros _; reflexivity]]).
  apply settledPreview_initial.
Defined.

(** X18.  Under the same condition, while the panel is closed no
    preview stream is live. *)
Theorem closed_panel_has_no_live_preview (p : Preview) :
  settledPreview p -> previewOpen p = false ->
  forallb (fun m => negb (isLive m)) (previewStreams p) = true.
Proof.
  intros Hreach Hclosed.
  destruct (settledPreview_inv p Hreach) as (_ & _ & Hlive).
  apply forallb_forall. intros m Hin.
  apply list_elem_of_In, list_elem_of_lookup in Hin as [i Hi].
  destruct (isLive m) eqn:Hl; [|reflexivity].
  destruct (Hlive i m Hi Hl) as (_ & _ & Ho). congruence.
Qed.

Lemma closed_panel_has_no_live_preview_witness :
  forallb (fun m => negb (isLive m))
    (previewStreams
       (fold_left previewStep
          [Props true "mic-a"%string; Acquired; Props false "mic-a"%string]
          initialPreview)) = true.
Proof.
  apply (closed_panel_has_no_live_preview
           (fold_left previewStep
              [Props true "mic-a"%string; Acquired; Props false "mic-a"%string]
              initialPreview)); [|reflexivity].
  cbn [fold_left].
  repeat (apply settledPreview_step; [|first [discriminate | intros _; reflexivity]]).
  apply settledPreview_initial.
Defined.

(** Changing the device while the previous [getUserMedia] call is
    pending leaves a stream that nothing stops. *)
Example preview_race_leaves_a_live_stream :
  map App.trackStops
    (previewStreams
       (fold_left previewStep
          [Props true "mic-a"%string; Props true "mic-b"%string; Acquired; Acquired;
           Props false "mic-b"%string]
          initialPreview)) = [0%nat; 1%nat].
Proof. reflexivity. Qed.

End SettingsPanelFacts.

(** ** The analyzer effect *)

Section AnalyzerEffectFacts.

Import AnalyzerEffect.

Context {V : Type}.
Variable tick : Uint8Array -> V.
Variable reset : V -> V.

(** What every reset value satisfies. *)
Variable P : V -> Prop.
Hypothesis reset_P : forall v, P (reset v).


Lemma sameDeps_spec (d : option (option nat * bool)) (stream : option nat) (isActive : bool) :
  sameDeps d stream isActive = true <-> d = Some (stream, isActive).
Proof.
  unfold sameDeps. destruct d as [[[i|] b]|], stream as [j|]; split;
    try discriminate; try (intros [=]; subst; rewrite ?Nat.eqb_refl, ?eqb_reflx; reflexivity).
  - intros H. apply andb_prop in H as [Hi Hb].
    apply Nat.eqb_eq in Hi. apply eqb_prop in Hb. congruence.
  - intros H. apply eqb_prop in H. congruence.
Qed.

Lemma release_pending (a : Analyzer (V := V)) :
  effectInv P a -> pendingFrames (release a) = [].
Proof.
  intros (_ & [Hnil|(_ & id & Hp & Hr & Hid)] & _); cbn [release pendingFrames].
  - rewrite Hnil. unfold cancelFrame.
    destruct (animationFrameRef a) as [j|]; [destruct (0 <? j)%nat|]; reflexivity.
  - rewrite Hp, Hr. unfold cancelFrame.
    apply Nat.ltb_lt in Hid. rewrite Hid. cbn. now rewrite Nat.eqb_refl.
Qed.

Lemma cleanup_pending (a : Analyzer (V := V)) :
  effectInv P a -> pendingFrames (cleanup a) = [].
Proof.
  intros Hinv. unfold cleanup. destruct (cleanupArmed a) eqn:Harmed.
  - now apply release_pending.
  - destruct Hinv as (_ & [Hnil|(Ht & _)] & _); [assumption|congruence].
Qed.

Lemma cleanup_keeps (a : Analyzer (V := V)) :
  nextFrame (cleanup a) = nextFrame a
  /\ length (graphCloses (cleanup a)) = length (graphCloses a)
  /\ value (cleanup a) = value a.
Proof.
  unfold cleanup. destruct (cleanupArmed a); [|repeat split].
  cbn. unfold closeGraph. destruct (audioContextRef a); rewrite ?length_alter; repeat split.
Qed.

Lemma effectInv_step (a : Analyzer (V := V)) (e : event) :
  effectInv P a -> effectInv P (step tick reset a e).
Proof.
  intros Hinv. pose proof Hinv as (Hn & Hpend & Harmed & Hdeps).
  destruct e as [stream isActive data|id data|]; cbn [step].
  - destruct (sameDeps (deps a) stream isActive) eqn:Hsame; [exact Hinv|].
    pose proof (cleanup_pending a Hinv) as Hp.
    destruct (cleanup_keeps a) as (Hnf & Hlen & Hval).
    unfold effect. destruct (isInactive stream isActive) eqn:Hin.
    + unfold effectInv. cbn.
      split; [lia|]. split.
      * left. rewrite Hp. unfold cancelFrame.
        destruct (animationFrameRef (cleanup a)) as [j|]; [destruct (0 <? j)%nat|]; reflexivity.
      * split; [discriminate|]. intros st act _ _. split; [reflexivity|apply reset_P].
    + unfold effectInv, onFrame. cbn. rewrite Hp.
      split; [lia|]. split.
      * right. split; [reflexivity|]. exists (nextFrame (cleanup a)). repeat split. lia.
      * split.
        -- intros _. split.
           ++ exists (length (graphCloses (cleanup a))). rewrite length_app. cbn.
              repeat split. lia.
           ++ exists stream, isActive. now split.
        -- intros st act [= <- <-] Hin'. congruence.
  - destruct (existsb (fun j => (j =? id)%nat) (pendingFrames a)) eqn:Hex; [|exact Hinv].
    destruct Hpend as [Hnil|(Ht & id0 & Hp & Hr & Hid0)];
      [rewrite Hnil in Hex; discriminate|].
    rewrite Hp in Hex. cbn in Hex. rewrite orb_false_r in Hex.
    destruct (Harmed Ht) as ((c & Hc & Hlt & Ha) & st & act & Hd & Hact).
    unfold effectInv, onFrame. cbn. rewrite Ha, Hp. cbn. rewrite Hex. cbn.
    split; [lia|]. split.
    + right. split; [exact Ht|]. exists (nextFrame a). repeat split. lia.
    + split.
      * intros _. split; [exists c; repeat split; assumption|].
        exists st, act. now split.
      * intros st' act' Hd' Hin'. rewrite Hd in Hd'. injection Hd' as <- <-. congruence.
  - pose proof (cleanup_pending a Hinv) as Hp.
    destruct (cleanup_keeps a) as (Hnf & _ & _).
    unfold effectInv. cbn. split; [lia|]. split; [now left|].
    split; discriminate.
Qed.

Lemma effectInv_run (trace : list event) (a : Analyzer (V := V)) :
  effectInv P a -> effectInv P (run tick reset a trace).
Proof.
  revert a; induction trace as [|e trace IH]; intros a Hinv; [exact Hinv|].
  apply (IH (step tick reset a e)). now apply effectInv_step.
Qed.

Lemma effectInv_initial (v : V) : effectInv P (initial v).
Proof.
  unfold effectInv. cbn. split; [lia|]. split; [now left|]. split; discriminate.
Qed.

Lemma frames_do_nothing (frames : list event) (a : Analyzer (V := V)) :
  pendingFrames a = [] -> Forall (fun e => isFrame e = true) frames ->
  run tick reset a frames = a.
Proof.
  intros Hp Hf. induction Hf as [|e frames He _ IH]; [reflexivity|].
  destruct e as [| id data |]; try discriminate.
  cbn [run fold_left step]. rewrite Hp. cbn [existsb]. exact IH.
Qed.

End AnalyzerEffectFacts.



Section LifecycleFacts.

Import AnalyzerEffect.

(** X19.  In both analyzer components, in every state reachable from
    mounting, at most one animation frame is pending; a pending frame is the
    one in [animationFrameRef], and the effect is in its active state. *)
Theorem at_most_one_frame_pending {V : Type} (tick : Uint8Array -> V) (reset : V -> V)
    (v : V) (trace : list event) :
  (length (pendingFrames (run tick reset (initial v) trace)) <= 1)%nat
  /\ (forall id, In id (pendingFrames (run tick reset (initial v) trace)) ->
        animationFrameRef (run tick reset (initial v) trace) = Some id
        /\ cleanupArmed (run tick reset (initial v) trace) = true).
Proof.
  destruct (effectInv_run tick reset (fun _ => True) (fun _ => I) trace (initial v)
              (effectInv_initial (fun _ => True) v))
    as (_ & [Hnil|(Ht & id & Hp & Hr & _)] & _).
  - rewrite Hnil. cbn. split; [lia|]. intros id [].
  - rewrite Hp. cbn. split; [lia|]. intros id' [<-|[]]. now split.
Qed.

(** X20.  While the props of an analyzer component are inactive
    ([isActive] false or no stream), no frame is pending, and frame
    callbacks, whatever their ids, change nothing: no value is set after
    the deactivation. *)
Theorem no_tick_while_inactive {V : Type} (tick : Uint8Array -> V) (reset : V -> V)
    (v : V) (trace frames : list event) (stream : option nat) (isActive : bool) :
  deps (run tick reset (initial v) trace) = Some (stream, isActive) ->
  isInactive stream isActive = true ->
  Forall (fun e => isFrame e = true) frames ->
  pendingFrames (run tick reset (initial v) trace) = []
  /\ cleanupArmed (run tick reset (initial v) trace) = false
  /\ run tick reset (initial v) (trace ++ frames) = run tick reset (initial v) trace.
Proof.
  intros Hdeps Hin Hframes.
  destruct (effectInv_run tick reset (fun _ => True) (fun _ => I) trace (initial v)
              (effectInv_initial (fun _ => True) v))
    as (_ & Hpend & _ & Hd).
  destruct (Hd stream isActive Hdeps Hin) as [Harmed _].
  assert (Hnil : pendingFrames (run tick reset (initial v) trace) = [])
    by (destruct Hpend as [Hnil|(Ht & _)]; [assumption|congruence]).
  repeat split; try assumption.
  unfold run at 1. rewrite fold_left_app. now apply frames_do_nothing.
Qed.

Lemma no_tick_while_inactive_witness :
  pendingFrames (Lifecycle.miniWaveform Lifecycle.shownThenHidden) = []
  /\ cleanupArmed (Lifecycle.miniWaveform Lifecycle.shownThenHidden) = false
  /\ Lifecycle.miniWaveform
       (Lifecycle.shownThenHidden ++ [Frame 3 (repeat xff 32); Frame 2 (repeat xff 32)])
     = Lifecycle.miniWaveform Lifecycle.shownThenHidden.
Proof.
  apply (no_tick_while_inactive MiniWaveform.update (fun levels => levels)
           [0%float; 0%float; 0%float] Lifecycle.shownThenHidden
           [Frame 3 (repeat xff 32); Frame 2 (repeat xff 32)] (Some 0%nat) false).
  - reflexivity.
  - reflexivity.
  - repeat constructor.
Defined.

(** X21.  While the props of [LiveMicIndicator] are inactive, the
    volume it holds is 0. *)
Theorem volume_is_zero_while_inactive (trace : list event)
    (stream : option nat) (isActive : bool) :
  deps (Lifecycle.liveMicIndicator trace) = Some (stream, isActive) ->
  isInactive stream isActive = true ->
  value (Lifecycle.liveMicIndicator trace) = 0%float.
Proof.
  intros Hdeps Hin. unfold Lifecycle.liveMicIndicator in *.
  destruct (effectInv_run LiveMicIndicator.updateVolume (fun _ => 0%float)
              (fun x => x = 0%float) (fun _ => eq_refl) trace (initial 0%float)
              (effectInv_initial (fun x => x = 0%float) 0%float))
    as (_ & _ & _ & Hd).
  now destruct (Hd stream isActive Hdeps Hin).
Qed.

Lemma volume_is_zero_while_inactive_witness :
  value (Lifecycle.liveMicIndicator Lifecycle.shownThenHidden) = 0%float.
Proof.
  apply (volume_is_zero_while_inactive Lifecycle.shownThenHidden (Some 0%nat) false);
    reflexivity.
Defined.

(** While shown, the value is that of the last tick. *)
Example volume_while_shown :
  value (Lifecycle.liveMicIndicator Lifecycle.shown) = 1%float
  /\ pendingFrames (Lifecycle.liveMicIndicator Lifecycle.shown) = [2%nat].
Proof. split; reflexivity. Qed.

(** X22.  When an active analyzer component is rendered with inactive
    props, the audio context of its analyser receives [close()] twice: once
    from the cleanup of the effect and once from the inactive branch, which
    finds the same context in [audioContextRef]. *)
Theorem deactivation_closes_the_context_twice {V : Type}
    (tick : Uint8Array -> V) (reset : V -> V) (v : V) (trace : list event)
    (stream : option nat) (isActive : bool) (data : Uint8Array) :
  cleanupArmed (run tick reset (initial v) trace) = true ->
  isInactive stream isActive = true ->
  exists c n,
    audioContextRef (run tick reset (initial v) trace) = Some c
    /\ graphCloses (run tick reset (initial v) trace) !! c = Some n
    /\ graphCloses (run tick reset (initial v) (trace ++ [Render stream isActive data])) !! c
       = Some (S (S n)).
Proof.
  intros Harmed Hin.
  destruct (effectInv_run tick reset (fun _ => True) (fun _ => I) trace (initial v)
              (effectInv_initial (fun _ => True) v))
    as (_ & _ & Ha & _).
  destruct (Ha Harmed) as ((c & Hc & Hlt & _) & st & act & Hd & Hact).
  destruct (lookup_lt_is_Some_2 _ _ Hlt) as [n Hn].
  exists c, n. split; [exact Hc|]. split; [exact Hn|].
  unfold run at 1. rewrite fold_left_app. cbn [fold_left step].
  fold (run tick reset (initial v) trace).
  destruct (sameDeps (deps (run tick reset (initial v) trace)) stream isActive) eqn:Hsame.
  - apply sameDeps_spec in Hsame. rewrite Hd in Hsame. injection Hsame as -> ->. congruence.
  - unfold effect, cleanup. rewrite Hin, Harmed. cbn. rewrite Hc. cbn.
    now rewrite !list_lookup_alter_eq, Hn.
Qed.

Lemma deactivation_closes_the_context_twice_witness :
  exists c n,
    audioContextRef (Lifecycle.liveMicIndicator Lifecycle.shown) = Some c
    /\ graphCloses (Lifecycle.liveMicIndicator Lifecycle.shown) !! c = Some n
    /\ graphCloses
         (Lifecycle.liveMicIndicator
            (Lifecycle.shown ++ [Render None true (repeat x00 32)])) !! c
       = Some (S (S n)).
Proof.
  apply (deactivation_closes_the_context_twice LiveMicIndicator.updateVolume
           (fun _ => 0%float) 0%float Lifecycle.shown None true (repeat x00 32));
    reflexivity.
Defined.

End LifecycleFacts.

(** ** What the analyzer components draw: ranges *)

Section StylesFacts.

Import Styles.

Set Warnings "-inexact-float".

Lemma indicator_styles_by_total (k : Z) :
  0 <= k <= 8160 ->
  (let volume := Math_min 1%float (Z2F k / Z2F 32 / 128)%float in
   in_unit (glowAlpha volume) && in_unit (innerGlowAlpha volume)
   && in_unit (glowOpacity volume) && in_unit (ringOpacity volume)
   && in_unit (barOpacity volume)
   && between 0.6%float 1%float (glowOpacity volume)
   && between 1%float 1.2%float (glowScale volume)) = true.
Proof.
  intros Hk.
  assert (H : forall_between 0 8160 (fun k =>
    let volume := Math_min 1%float (Z2F k / Z2F 32 / 128)%float in
    in_unit (glowAlpha volume) && in_unit (innerGlowAlpha volume)
    && in_unit (glowOpacity volume) && in_unit (ringOpacity volume)
    && in_unit (barOpacity volume)
    && between 0.6%float 1%float (glowOpacity volume)
    && between 1%float 1.2%float (glowScale volume)) = true)
    by (vm_compute; reflexivity).
  exact (forall_between_spec _ _ _ H k Hk).
Qed.

(** X23.  For every bin buffer of the volume analyzer, the alphas and
    opacities that [LiveMicIndicator] draws with the resulting volume are
    numbers in [0, 1]; the opacity of the glow layer is in [0.6, 1] and its
    scale in [1, 1.2]. *)
Theorem indicator_opacities_are_valid (dataArray : Uint8Array) :
  Z.of_nat (length dataArray) = LiveMicIndicator.frequencyBinCount ->
  in_unit (glowAlpha (LiveMicIndicator.updateVolume dataArray)) = true
  /\ in_unit (innerGlowAlpha (LiveMicIndicator.updateVolume dataArray)) = true
  /\ in_unit (ringOpacity (LiveMicIndicator.updateVolume dataArray)) = true
  /\ in_unit (barOpacity (LiveMicIndicator.updateVolume dataArray)) = true
  /\ between 0.6%float 1%float (glowOpacity (LiveMicIndicator.updateVolume dataArray)) = true
  /\ between 1%float 1.2%float (glowScale (LiveMicIndicator.updateVolume dataArray)) = true.
Proof.
  intros Hlen. change LiveMicIndicator.frequencyBinCount with 32 in Hlen.
  rewrite updateVolume_by_total by lia. rewrite Hlen.
  pose proof (total_range dataArray) as Hrange.
  assert (Hk : 0 <= total dataArray <= 8160) by lia.
  pose proof (indicator_styles_by_total (total dataArray) Hk) as H. cbv zeta in H.
  do 6 (apply andb_prop in H as [H ?]).
  repeat split; assumption.
Qed.

Lemma indicator_opacities_are_valid_witness :
  in_unit (glowAlpha (LiveMicIndicator.updateVolume (repeat xff 32))) = true
  /\ in_unit (innerGlowAlpha (LiveMicIndicator.updateVolume (repeat xff 32))) = true
  /\ in_unit (ringOpacity (LiveMicIndicator.updateVolume (repeat xff 32))) = true
  /\ in_unit (barOpacity (LiveMicIndicator.updateVolume (repeat xff 32))) = true
  /\ between 0.6%float 1%float (glowOpacity (LiveMicIndicator.updateVolume (repeat xff 32))) = true
  /\ between 1%float 1.2%float (glowScale (LiveMicIndicator.updateVolume (repeat xff 32))) = true.
Proof.
  apply (indicator_opacities_are_valid (repeat xff 32)). reflexivity.
Defined.

Lemma bar_height_of_byte (b : byte) :
  between 20%float 100%float (barHeight (Z2F (u8 b) / 255)%float) = true.
Proof. destruct b; vm_compute; reflexivity. Qed.

(** X24.  For every bin buffer with more than 8 bins (the band
    analyzer has 16), each of the three bars of [MiniWaveform] has a height
    between 20 and 100 percent. *)
Theorem waveform_bars_fit (dataArray : Uint8Array) :
  (8 < length dataArray)%nat ->
  Forall (fun lvl => between 20%float 100%float (barHeight lvl) = true)
    (MiniWaveform.update dataArray).
Proof.
  intros Hlen. unfold MiniWaveform.update.
  destruct (u8_at_lookup dataArray 1) as (b1 & _ & ->); [lia|].
  destruct (u8_at_lookup dataArray 4) as (b2 & _ & ->); [lia|].
  destruct (u8_at_lookup dataArray 8) as (b3 & _ & ->); [lia|].
  repeat constructor; apply bar_height_of_byte.
Qed.

Lemma waveform_bars_fit_witness :
  Forall (fun lvl => between 20%float 100%float (barHeight lvl) = true)
    (MiniWaveform.update (repeat xff 16)).
Proof.
  apply (waveform_bars_fit (repeat xff 16)). vm_compute. lia.
Defined.

(** The bounds are reached: silence gives 20 percent, full scale 100. *)
Example waveform_bars_extremes :
  map barHeight (MiniWaveform.update (repeat x00 16)) = [20%float; 20%float; 20%float]
  /\ map barHeight (MiniWaveform.update (repeat xff 16)) = [100%float; 100%float; 100%float].
Proof. split; reflexivity. Qed.

Set Warnings "+inexact-float".

End StylesFacts.
